(** * Dataform [api/commands/compile.ts]: validation of [dataform.json] and
      the compilation child process.

    The development follows the source file top to bottom:
    - [Js]      the fragment of JavaScript values the validator inspects
                (truthiness, string conversion, the test of the regular
                expression [/^[a-zA-Z_0-9\-]*$/]);
    - [Validity] the function [checkDataformJsonValidity];
    - [Runtime] errors, promises, the child process and the timer, and a
                small state-and-exception monad with [try ... finally];
    - [Child]   the method [CompileChildProcess.compile];
    - [Api]     the exported function [compile];
    - [Rules], [Outcomes], [Failures], [Sample]  the vocabulary of the
                statements and concrete data for the examples;
    - [ValidityFacts], [ChildFacts], [ApiFacts]  the proofs. *)

From Stdlib Require Import Ascii String ZArith Lia.
From stdpp Require Import gmap strings list fin_maps pretty.

#[local] Set Warnings "-register-all".
Local Open Scope string_scope.
Local Open Scope Z_scope.

(** ** JavaScript values *)

Module Js.

(** What [JSON.parse] and object literals can put in a property.  Of a
    number the file asks two things only, its text and its truth value: a
    number is kept as the text [String(n)] gives for it ([1e+21], [0.5],
    [NaN]) together with whether it is truthy (neither 0 nor [NaN]). *)
Inductive jsValue : Type :=
  | JUndefined
  | JNull
  | JBool (b : bool)
  | JNumber (text : string) (nonZero : bool)
  | JString (s : string)
  | JArray (elems : list jsValue)
  | JObject (fields : gmap string jsValue).

(** A plain object: own properties by name. *)
Abbreviation jsObject := (gmap string jsValue).

(** [prop in obj], for an object whose prototype holds none of the names
    asked for. *)
Definition hasProp (obj : jsObject) (prop : string) : bool :=
  bool_decide (is_Some (obj !! prop)).

(** [obj[prop]]: [undefined] when the property is absent. *)
Definition getProp (obj : jsObject) (prop : string) : jsValue :=
  default JUndefined (obj !! prop).

(** Error objects, by class.  [message] is the [message] property. *)
Inductive jsError : Type :=
  | Error (msg : string)
  | TypeError (msg : string)
  | SyntaxError (msg : string)
  | SystemError (msg : string)
  | CompilationTimeoutError (msg : string)
  | ErrorWithCause (msg : string) (cause : jsError).

Definition message (e : jsError) : string :=
  match e with
  | Error m | TypeError m | SyntaxError m | SystemError m
  | CompilationTimeoutError m | ErrorWithCause m _ => m
  end.

(** [ToBoolean]. *)
Definition truthy (v : jsValue) : bool :=
  match v with
  | JUndefined => false
  | JNull => false
  | JBool b => b
  | JNumber _ nonZero => nonZero
  | JString s => negb (String.eqb s EmptyString)
  | JArray _ => true
  | JObject _ => true
  end.

(** [ToBoolean] on a string, as in [invProp ? ... : null]. *)
Definition truthy_string (s : string) : bool := negb (String.eqb s EmptyString).

(** [Array.prototype.join]. *)
Fixpoint join (sep : string) (parts : list string) : string :=
  match parts with
  | [] => EmptyString
  | [p] => p
  | p :: rest => p +:+ sep +:+ join sep rest
  end.

(** [ToString], as template literals and [RegExp.prototype.test] apply it:
    the text, or the [TypeError] thrown.  An array prints its elements
    separated by commas, [null] and [undefined] elements as the empty
    string.  A plain object prints as [[object Object]], unless it has a
    property [toString] of its own: a value that came from JSON or from an
    object literal of data is not a function, so the conversion finds
    nothing to call and throws. *)
Fixpoint toString (v : jsValue) : jsError + string :=
  match v with
  | JUndefined => inr "undefined"
  | JNull => inr "null"
  | JBool true => inr "true"
  | JBool false => inr "false"
  | JNumber text _ => inr text
  | JString s => inr s
  | JArray elems =>
      (fix joined (l : list jsValue) : jsError + string :=
         match l with
         | [] => inr EmptyString
         | e :: rest =>
             let first :=
               match e with
               | JUndefined | JNull => inr EmptyString
               | _ => toString e
               end in
             match first with
             | inl err => inl err
             | inr text =>
                 match rest with
                 | [] => inr text
                 | _ =>
                     match joined rest with
                     | inl err => inl err
                     | inr others => inr (text +:+ "," +:+ others)
                     end
                 end
             end
         end) elems
  | JObject fields =>
      if bool_decide (is_Some (fields !! "toString"))
      then inl (TypeError "Cannot convert object to primitive value")
      else inr "[object Object]"
  end.

(** The character class [[a-zA-Z_0-9\-]]. *)
Definition simpleChar (c : ascii) : bool :=
  let n := Z.of_nat (nat_of_ascii c) in
  ((97 <=? n) && (n <=? 122)) || ((65 <=? n) && (n <=? 90))
  || (n =? 95) || ((48 <=? n) && (n <=? 57)) || (n =? 45).

Fixpoint allChars (p : ascii -> bool) (s : string) : bool :=
  match s with
  | EmptyString => true
  | String c rest => p c && allChars p rest
  end.

(** [/^[a-zA-Z_0-9\-]*$/.test(v)]: the argument is converted to a string
    first. *)
Definition simplePattern_test (v : jsValue) : jsError + bool :=
  match toString v with
  | inl err => inl err
  | inr text => inr (allChars simpleChar text)
  end.

(** [Array.prototype.includes] on an array of strings: only a string can be
    found in it. *)
Definition includes (xs : list string) (v : jsValue) : bool :=
  match v with
  | JString s => existsb (String.eqb s) xs
  | _ => false
  end.

(** [a() || b()] on [string | null]: [b] is called only when [a] has
    returned a falsy value; what either throws is thrown. *)
Definition orElse (a b : jsError + option string) : jsError + option string :=
  match a with
  | inl err => inl err
  | inr (Some s) => if truthy_string s then inr (Some s) else b
  | inr None => b
  end.

(** [Array.prototype.find] with a callback that can throw: the first
    element for which the callback returns true. *)
Fixpoint arrayFind {A} (callback : A -> jsError + bool) (l : list A) : jsError + option A :=
  match l with
  | [] => inr None
  | x :: rest =>
      match callback x with
      | inl err => inl err
      | inr true => inr (Some x)
      | inr false => arrayFind callback rest
      end
  end.

End Js.

(** ** What [compile.ts] imports

    The names the file imports from other modules and from the platform,
    none of which it defines. *)

Class Imports := {
  (** [validWarehouses], from [df/api/dbadapters]. *)
  validWarehouses : list string;
  (** [coerceAsError], from [df/common/errors/errors]: the error it
      returns, or the error it throws. *)
  coerceAsError : Js.jsValue -> Js.jsError + Js.jsError;
  (** [JSON.parse]: the parsed value, or the [SyntaxError] it throws. *)
  JSON_parse : string -> Js.jsError + Js.jsValue;
  (** [deepmerge(target, source)] with a plain object as [source]: the
      result is a fresh plain object. *)
  deepmerge : Js.jsValue -> gmap string Js.jsValue -> gmap string Js.jsValue;
  (** [dataform.CompiledGraph]. *)
  CompiledGraph : Type;
  (** [decode64(dataform.CompiledGraph, s)]. *)
  decode64_CompiledGraph : string -> Js.jsError + CompiledGraph;
  (** [dataform.CompiledGraph.create(decode64(dataform.CoreExecutionResult,
      s).compiledGraph)]. *)
  decode64_CoreExecutionResult : string -> Js.jsError + CompiledGraph
}.

(** ** [checkDataformJsonValidity] *)

Module Validity.
Import Js.

(** Project config properties that are required. *)
Definition mandatoryProps : list string := ["warehouse"; "defaultSchema"].

(** Project config properties that require alphanumeric characters, hyphens
    or underscores. *)
Definition simpleCheckProps : list string :=
  ["assertionSchema"; "databaseSuffix"; "schemaSuffix"; "tablePrefix"; "defaultSchema"].

Section Rules.
Context `{Imports}.
Variable dataformJsonParsed : jsObject.

Definition invalidWarehouseProp : jsError + option string :=
  if truthy (getProp dataformJsonParsed "warehouse")
     && negb (includes validWarehouses (getProp dataformJsonParsed "warehouse"))
  then
    match toString (getProp dataformJsonParsed "warehouse") with
    | inl err => inl err
    | inr text =>
        inr (Some ("Invalid value on property warehouse: " +:+ text
                   +:+ ". Should be one of: " +:+ join ", " validWarehouses +:+ "."))
    end
  else inr None.

(** The callback of [simpleCheckProps.find]. *)
Definition breaksPattern (prop : string) : jsError + bool :=
  if hasProp dataformJsonParsed prop
  then
    match simplePattern_test (getProp dataformJsonParsed prop) with
    | inl err => inl err
    | inr matches => inr (negb matches)
    end
  else inr false.

Definition invalidProp : jsError + option string :=
  match arrayFind breaksPattern simpleCheckProps with
  | inl err => inl err
  | inr (Some invProp) =>
      if truthy_string invProp
      then
        match toString (getProp dataformJsonParsed invProp) with
        | inl err => inl err
        | inr text =>
            inr (Some ("Invalid value on property " +:+ invProp +:+ ": " +:+ text
                       +:+ ". Should only contain alphanumeric characters, underscores and/or hyphens."))
        end
      else inr None
  | inr None => inr None
  end.

Definition missingMandatoryProp : option string :=
  let missMandatoryProp :=
    List.find (fun prop => negb (hasProp dataformJsonParsed prop)) mandatoryProps in
  match missMandatoryProp with
  | Some missMandatoryProp =>
      if truthy_string missMandatoryProp
      then Some ("Missing mandatory property: " +:+ missMandatoryProp +:+ ".")
      else None
  | None => None
  end.

(** The constant [message]. *)
Definition validityMessage : jsError + option string :=
  orElse invalidWarehouseProp (orElse invalidProp (inr missingMandatoryProp)).

(** The function itself: the error thrown, or a normal return. *)
Definition checkDataformJsonValidity : jsError + unit :=
  match validityMessage with
  | inl err => inl err
  | inr (Some message) => if truthy_string message then inl (Error message) else inr tt
  | inr None => inr tt
  end.

End Rules.
End Validity.

(** ** The runtime: promises, the child process, the timer *)

Module Runtime.
Import Js.

(** A promise settles once: [resolve] and [reject] act on a pending promise
    only. *)
Inductive promise (A : Type) : Type :=
  | Pending
  | Fulfilled (value : A)
  | Rejected (reason : jsError).
Arguments Pending {A}.
Arguments Fulfilled {A} value.
Arguments Rejected {A} reason.

Definition resolve {A} (value : A) (p : promise A) : promise A :=
  match p with Pending => Fulfilled value | _ => p end.

Definition reject {A} (reason : jsError) (p : promise A) : promise A :=
  match p with Pending => Rejected reason | _ => p end.

Definition settled {A} (p : promise A) : bool :=
  match p with Pending => false | _ => true end.

(** [dataform.ICompileConfig], the fields [compile.ts] reads.  [None] is an
    absent ([undefined] or [null]) field. *)
Record CompileConfig : Type := {
  projectDir : option string;
  schemaSuffixOverride : option string;
  projectConfigOverride : option jsObject;
  timeoutMillis : option Z;
  useMain : option bool
}.

(** What the [ChildProcess] emits: the events the method listens to, each
    with its argument. *)
Inductive signal : Type :=
  | OnError (e : jsValue)
  | OnMessage (messageOrError : jsValue)
  | OnClose (exitCode : option Z).

(** The [ChildProcess] object: whether the process it stands for is alive,
    its [killed] flag, and what was sent to it. *)
Record ChildProcess : Type := {
  alive : bool;
  killed : bool;
  sent : list CompileConfig
}.

(** The variable [timer]: unset, or a timeout that is pending (with the
    time it is due), has run, or was cleared. *)
Inductive timerState : Type :=
  | NoTimer
  | Armed (due : Z)
  | Fired
  | Cleared.

(** Everything a call can read or change.  [compileConfig] is the caller's
    object, which the call receives by reference.  [inbox] lists the signals
    the child process is going to emit, in order, each with the time in
    milliseconds (counted from the call) at which it reaches the event
    loop. *)
Record world : Type := {
  disk : string -> jsError + string;
  compileConfig : CompileConfig;
  forks : nat;
  childProcess : ChildProcess;
  compileInChildProcess : promise string;
  timeout : promise unit;
  race : promise unit;
  timer : timerState;
  inbox : list (Z * signal)
}.

Definition set_compileConfig (c : CompileConfig) (w : world) : world :=
  {| disk := disk w; compileConfig := c; forks := forks w;
     childProcess := childProcess w;
     compileInChildProcess := compileInChildProcess w; timeout := timeout w;
     race := race w; timer := timer w; inbox := inbox w |}.

Definition set_forks (n : nat) (w : world) : world :=
  {| disk := disk w; compileConfig := compileConfig w; forks := n;
     childProcess := childProcess w;
     compileInChildProcess := compileInChildProcess w; timeout := timeout w;
     race := race w; timer := timer w; inbox := inbox w |}.

Definition set_childProcess (c : ChildProcess) (w : world) : world :=
  {| disk := disk w; compileConfig := compileConfig w; forks := forks w;
     childProcess := c;
     compileInChildProcess := compileInChildProcess w; timeout := timeout w;
     race := race w; timer := timer w; inbox := inbox w |}.

Definition set_compileInChildProcess (p : promise string) (w : world) : world :=
  {| disk := disk w; compileConfig := compileConfig w; forks := forks w;
     childProcess := childProcess w;
     compileInChildProcess := p; timeout := timeout w;
     race := race w; timer := timer w; inbox := inbox w |}.

Definition set_timeout (p : promise unit) (w : world) : world :=
  {| disk := disk w; compileConfig := compileConfig w; forks := forks w;
     childProcess := childProcess w;
     compileInChildProcess := compileInChildProcess w; timeout := p;
     race := race w; timer := timer w; inbox := inbox w |}.

Definition set_race (p : promise unit) (w : world) : world :=
  {| disk := disk w; compileConfig := compileConfig w; forks := forks w;
     childProcess := childProcess w;
     compileInChildProcess := compileInChildProcess w; timeout := timeout w;
     race := p; timer := timer w; inbox := inbox w |}.

Definition set_timer (t : timerState) (w : world) : world :=
  {| disk := disk w; compileConfig := compileConfig w; forks := forks w;
     childProcess := childProcess w;
     compileInChildProcess := compileInChildProcess w; timeout := timeout w;
     race := race w; timer := t; inbox := inbox w |}.

Definition set_inbox (q : list (Z * signal)) (w : world) : world :=
  {| disk := disk w; compileConfig := compileConfig w; forks := forks w;
     childProcess := childProcess w;
     compileInChildProcess := compileInChildProcess w; timeout := timeout w;
     race := race w; timer := timer w; inbox := q |}.

(** *** Computations: state, exceptions, and waiting *)

(** How a piece of code ends: it returns, it throws, or it waits forever on
    a promise that never settles. *)
Inductive completion (A : Type) : Type :=
  | Return (a : A)
  | Throw (e : jsError)
  | Waiting.
Arguments Return {A} a.
Arguments Throw {A} e.
Arguments Waiting {A}.

Definition M (A : Type) : Type := world -> completion A * world.

Definition ret {A} (a : A) : M A := fun w => (Return a, w).

Definition throw {A} (e : jsError) : M A := fun w => (Throw e, w).

Definition bind {A B} (m : M A) (k : A -> M B) : M B := fun w =>
  match m w with
  | (Return a, w') => k a w'
  | (Throw e, w') => (Throw e, w')
  | (Waiting, w') => (Waiting, w')
  end.

Definition gets {A} (f : world -> A) : M A := fun w => (Return (f w), w).

Definition modify (f : world -> world) : M unit := fun w => (Return tt, f w).

(** A call that returns a value or throws. *)
Definition lift {A} (r : jsError + A) : M A :=
  match r with inl e => throw e | inr a => ret a end.

(** [try { body } catch (e) { handler }]. *)
Definition tryCatch {A} (body : M A) (handler : jsError -> M A) : M A := fun w =>
  match body w with
  | (Throw e, w') => handler e w'
  | other => other
  end.

(** [try { body } finally { finalizer }]: the finalizer runs when the body
    returns and when it throws; if the finalizer throws, its error replaces
    the body's completion. *)
Definition tryFinally {A} (body : M A) (finalizer : M unit) : M A := fun w =>
  match body w with
  | (Waiting, w') => (Waiting, w')
  | (done, w') =>
      match finalizer w' with
      | (Return _, w'') => (done, w'')
      | (Throw e, w'') => (Throw e, w'')
      | (Waiting, w'') => (Waiting, w'')
      end
  end.

Declare Scope js_scope.
Delimit Scope js_scope with js.
Notation "x <- m ;; k" := (bind m (fun x => k))
  (at level 100, m at next level, right associativity) : js_scope.
Notation "m ;; k" := (bind m (fun _ => k))
  (at level 100, right associativity) : js_scope.
Notation "'when' b 'then' m" := (if b then m else ret tt)
  (at level 100, b at next level, m at level 100) : js_scope.

End Runtime.

(** ** [CompileChildProcess] *)

Module Child.
Import Js Runtime.
Local Open Scope js_scope.

(** *** The platform's operations *)

(** [childProcess.send(message)]: the message is serialised as it is at
    that moment. *)
Definition send (message : CompileConfig) : M unit :=
  modify (fun w =>
    let c := childProcess w in
    set_childProcess {| alive := alive c; killed := killed c;
                        sent := sent c ++ [message] |} w).

(** [childProcess.kill("SIGKILL")]: a live process is ended and the
    [killed] flag set; on a process that has ended it does nothing. *)
Definition kill : M unit :=
  modify (fun w =>
    let c := childProcess w in
    if alive c
    then set_childProcess {| alive := false; killed := true; sent := sent c |} w
    else w).

(** The largest delay a timer takes. *)
Definition TIMEOUT_MAX : Z := 2147483647.

(** The delay a timer really waits: one that is below 1 or above
    [TIMEOUT_MAX] is replaced by 1. *)
Definition timerDelay (after : Z) : Z :=
  if (1 <=? after) && (after <=? TIMEOUT_MAX) then after else 1.

(** [timer = setTimeout(callback, after)], at time 0 of the call. *)
Definition setTimeout (after : Z) : M unit :=
  modify (set_timer (Armed (timerDelay after))).

(** [clearTimeout(timer)]: a pending timeout is cancelled; one that has run
    stays as it is. *)
Definition clearTimeout : M unit :=
  modify (fun w =>
    match timer w with
    | Armed _ => set_timer Cleared w
    | _ => w
    end).

(** *** The listeners of [compile] (lines 86 to 100) and the timer's
    callback (line 109) *)

Definition exitCodeText (exitCode : option Z) : string :=
  match exitCode with
  | Some n => pretty n
  | None => "null"
  end.

(** [exitCode !== 0]. *)
Definition nonZero (exitCode : option Z) : bool :=
  match exitCode with
  | Some n => negb (n =? 0)
  | None => true
  end.

Section Listeners.
Context `{Imports}.

(** [reject(coerceAsError(errorLike))]: when [coerceAsError] throws, the
    listener ends there, [reject] is not called and the promise is left as
    it is. *)
Definition rejectCoerced (errorLike : jsValue) (p : promise string) : promise string :=
  match coerceAsError errorLike with
  | inr e => reject e p
  | inl _ => p
  end.

(** What the three listeners do to [compileInChildProcess] when the child
    process emits [s]. *)
Definition listener (s : signal) (p : promise string) : promise string :=
  match s with
  | OnError e => rejectCoerced e p
  | OnMessage messageOrError =>
      match messageOrError with
      | JString message => resolve message p
      | _ => rejectCoerced messageOrError p
      end
  | OnClose exitCode =>
      if nonZero exitCode
      then reject (Error ("Compilation child process exited with exit code "
                          +:+ exitCodeText exitCode +:+ ".")) p
      else p
  end.

(** [Promise.race([timeout, compileInChildProcess])] follows the first of
    the two that settles, [timeout] first when both have. *)
Definition raceOf (t : promise unit) (c : promise string) : promise unit :=
  match t with
  | Fulfilled _ => Fulfilled tt
  | Rejected e => Rejected e
  | Pending =>
      match c with
      | Fulfilled _ => Fulfilled tt
      | Rejected e => Rejected e
      | Pending => Pending
      end
  end.

Definition settleRace (w : world) : world :=
  match race w with
  | Pending => set_race (raceOf (timeout w) (compileInChildProcess w)) w
  | _ => w
  end.

(** The event loop hands one signal of the child process to the listeners.
    A [close] tells that the process has ended. *)
Definition deliver (s : signal) (w : world) : world :=
  let c := childProcess w in
  let w1 :=
    match s with
    | OnClose _ => set_childProcess {| alive := false; killed := killed c;
                                       sent := sent c |} w
    | _ => w
    end in
  settleRace (set_compileInChildProcess (listener s (compileInChildProcess w1)) w1).

(** The timer's callback runs. *)
Definition fireTimer (w : world) : world :=
  settleRace
    (set_timeout (reject (CompilationTimeoutError "Compilation timed out") (timeout w))
       (set_timer Fired w)).

(** *** The event loop, while the call awaits a promise *)

(** Without a pending timer: signals are delivered in order until [ready]
    holds or none is left. *)
Fixpoint drain (ready : world -> bool) (q : list (Z * signal)) (w : world) : world :=
  if ready w then set_inbox q w
  else
    match q with
    | [] => set_inbox [] w
    | (_, s) :: rest => drain ready rest (deliver s w)
    end.

(** With the timer: a signal that arrives before the timer is due is
    delivered before the timer's callback runs. *)
Fixpoint eventLoop (ready : world -> bool) (q : list (Z * signal)) (w : world) : world :=
  if ready w then set_inbox q w
  else
    match timer w with
    | Armed due =>
        match q with
        | [] => drain ready [] (fireTimer w)
        | (t, s) :: rest =>
            if t <? due
            then eventLoop ready rest (deliver s w)
            else drain ready q (fireTimer w)
        end
    | _ => drain ready q w
    end.

(** [await p]. *)
Definition await {A} (p : world -> promise A) : M A := fun w =>
  let w' := eventLoop (fun w => settled (p w)) (inbox w) w in
  match p w' with
  | Fulfilled value => (Return value, w')
  | Rejected reason => (Throw reason, w')
  | Pending => (Waiting, w')
  end.

(** *** The method [compile] *)

(** [compileConfig.timeoutMillis || 5000]. *)
Definition timeoutOrDefault (compileConfig : CompileConfig) : Z :=
  match timeoutMillis compileConfig with
  | Some n => if negb (n =? 0) then n else 5000
  | None => 5000
  end.

(** [if (timer)]. *)
Definition timerIsSet (t : timerState) : bool :=
  match t with NoTimer => false | _ => true end.

(** Lines 85 to 112: [compileInChildProcess] is created, its executor puts
    the listeners in place and sends the request; then [timer] is declared
    and [timeout] created, whose executor sets the timer. *)
Definition startRequest : M unit :=
  modify (set_compileInChildProcess Pending) ;;
  request <- gets compileConfig ;;
  send request ;;
  modify (set_timer NoTimer) ;;
  modify (set_timeout Pending) ;;
  setTimeout (timeoutOrDefault request).

(** Lines 114 and 115, the [try] block. *)
Definition awaitResult : M string :=
  modify (fun w => set_race (raceOf (timeout w) (compileInChildProcess w)) w) ;;
  await race ;;
  await compileInChildProcess.

(** Lines 117 to 122, the [finally] block. *)
Definition cleanup : M unit :=
  wasKilled <- gets (fun w => killed (childProcess w)) ;;
  (when negb wasKilled then kill) ;;
  t <- gets timer ;;
  when timerIsSet t then clearTimeout.

Definition compile : M string :=
  startRequest ;;
  tryFinally awaitResult cleanup.

(** [CompileChildProcess.forkProcess()]: a new process, alive and not
    killed, to which nothing has been sent. *)
Definition forkProcess : M unit :=
  modify (fun w =>
    set_childProcess {| alive := true; killed := false; sent := [] |}
      (set_forks (S (forks w)) w)).

End Listeners.
End Child.

(** ** The exported function [compile] *)

Module Api.
Import Js Runtime.
Local Open Scope js_scope.

Section Compile.
Context `{Imports}.

(** [path.resolve(p)] throws when [p] is not a string; its result is not
    used. *)
Definition path_resolve (p : option string) : M unit :=
  match p with
  | Some _ => ret tt
  | None => throw (TypeError "The path argument must be of type string.")
  end.

(** A string field inside a template literal. *)
Definition interpolate (field : option string) : string :=
  match field with Some s => s | None => "undefined" end.

(** [fs.readFileSync(path, "utf8")]. *)
Definition readFileSync (path : string) : M string := fun w => lift (disk w path) w.

(** [{ schemaSuffix: suffix, ...projectConfigOverride }]: a property of the
    override named [schemaSuffix] takes precedence. *)
Definition withSchemaSuffix (suffix : string) (override : option jsObject) : jsObject :=
  default ∅ override ∪ {[ "schemaSuffix" := JString suffix ]}.

(** Lines 32 to 37: the assignment to [compileConfig.projectConfigOverride]
    writes into the caller's object. *)
Definition applySchemaSuffixOverride : M unit :=
  request <- gets compileConfig ;;
  match schemaSuffixOverride request with
  | Some suffix =>
      when truthy_string suffix then
        modify (set_compileConfig
          {| projectDir := projectDir request;
             schemaSuffixOverride := schemaSuffixOverride request;
             projectConfigOverride :=
               Some (withSchemaSuffix suffix (projectConfigOverride request));
             timeoutMillis := timeoutMillis request;
             useMain := useMain request |})
  | None => ret tt
  end.

(** Lines 39 to 49. *)
Definition checkProjectConfig : M unit :=
  tryCatch
    (request <- gets compileConfig ;;
     dataformJson <- readFileSync (interpolate (projectDir request) +:+ "/dataform.json") ;;
     projectConfig <- lift (JSON_parse dataformJson) ;;
     lift (Validity.checkDataformJsonValidity
             (deepmerge projectConfig (default ∅ (projectConfigOverride request)))))
    (fun e =>
       throw (ErrorWithCause
                ("Compilation failed. ProjectConfig ('dataform.json') is invalid: "
                 +:+ message e) e)).

Definition compile : M CompiledGraph :=
  request <- gets compileConfig ;;
  path_resolve (projectDir request) ;;
  applySchemaSuffixOverride ;;
  checkProjectConfig ;;
  Child.forkProcess ;;
  result <- Child.compile ;;
  request <- gets compileConfig ;;
  if default false (useMain request)
  then lift (decode64_CoreExecutionResult result)
  else lift (decode64_CompiledGraph result).

End Compile.
End Api.

(** ** Vocabulary of the statements *)

(** The three rules of the validator as properties of a configuration, and
    the message each one raises. *)
Module Rules.
Import Js Validity.

Section Rules.
Context `{Imports}.

(** The warehouse rule is violated by [w], the value of [warehouse]. *)
Definition warehouseViolatedBy (cfg : jsObject) (w : jsValue) : Prop :=
  cfg !! "warehouse" = Some w /\ truthy w = true /\ includes validWarehouses w = false.

Definition warehouseViolated (cfg : jsObject) : Prop :=
  exists w, warehouseViolatedBy cfg w.

(** The pattern rule is violated at the simple field [p], whose value is
    [v] and prints as [text]. *)
Definition simpleViolatedAt (cfg : jsObject) (p : string) (v : jsValue) (text : string)
  : Prop :=
  In p simpleCheckProps /\ cfg !! p = Some v /\ toString v = inr text
  /\ allChars simpleChar text = false.

Definition simpleViolated (cfg : jsObject) : Prop :=
  exists p v text, simpleViolatedAt cfg p v text.

(** The simple field [p] is absent, or its value can be printed and matches
    the pattern. *)
Definition simpleCleanAt (cfg : jsObject) (p : string) : Prop :=
  forall v, cfg !! p = Some v -> simplePattern_test v = inr true.

(** Every simple field is. *)
Definition simpleClean (cfg : jsObject) : Prop :=
  forall p, In p simpleCheckProps -> simpleCleanAt cfg p.

(** The value of every simple field present can be printed. *)
Definition simplePrintable (cfg : jsObject) : Prop :=
  forall p v, In p simpleCheckProps -> cfg !! p = Some v ->
              exists text, toString v = inr text.

(** The mandatory field [p] is missing. *)
Definition missingAt (cfg : jsObject) (p : string) : Prop :=
  In p mandatoryProps /\ cfg !! p = None.

(** The messages, for a value that prints as [text]. *)
Definition warehouseMessage (text : string) : string :=
  "Invalid value on property warehouse: " +:+ text
  +:+ ". Should be one of: " +:+ join ", " validWarehouses +:+ ".".

Definition simpleMessage (p : string) (text : string) : string :=
  "Invalid value on property " +:+ p +:+ ": " +:+ text
  +:+ ". Should only contain alphanumeric characters, underscores and/or hyphens.".

Definition missingMessage (p : string) : string :=
  "Missing mandatory property: " +:+ p +:+ ".".

End Rules.
End Rules.

(** The order in which a call meets the signals of the child process and
    its own timer, and what each of them makes of the call. *)
Module Outcomes.
Import Js Runtime.

(** What the event loop runs: a listener of the child process, or the
    timer's callback. *)
Inductive event : Type :=
  | Signal (s : signal)
  | TimerRuns.

(** The events in the order the loop runs them, for a timer due at [due]:
    the signals that arrive before [due], the timer, the other signals. *)
Fixpoint schedule (due : Z) (q : list (Z * signal)) : list event :=
  match q with
  | [] => [TimerRuns]
  | (t, s) :: rest =>
      if t <? due
      then Signal s :: schedule due rest
      else TimerRuns :: map (fun ts => Signal (snd ts)) q
  end.

(** The two promises the method awaits, as tests on the world. *)
Definition raceReady (w : world) : bool := settled (race w).
Definition resultReady (w : world) : bool := settled (compileInChildProcess w).

(** The call waits for the race: nothing has settled and the timer is
    pending, due at [due]. *)
Definition Awaiting (due : Z) (w : world) : Prop :=
  race w = Pending /\ timeout w = Pending /\ compileInChildProcess w = Pending
  /\ timer w = Armed due.

(** What lines 114 and 115 make of the two promises once the race has
    settled. *)
Definition resultOf (w : world) : completion string :=
  match race w with
  | Pending => Waiting
  | Rejected reason => Throw reason
  | Fulfilled _ =>
      match compileInChildProcess w with
      | Pending => Waiting
      | Rejected reason => Throw reason
      | Fulfilled value => Return value
      end
  end.

(** What the event loop leaves as it is between two worlds of a call; a
    process that has ended stays so. *)
Record sameCall (w w' : world) : Prop := {
  same_disk : disk w' = disk w;
  same_config : compileConfig w' = compileConfig w;
  same_forks : forks w' = forks w;
  same_killed : killed (childProcess w') = killed (childProcess w);
  same_sent : sent (childProcess w') = sent (childProcess w);
  still_ended : alive (childProcess w) = false -> alive (childProcess w') = false
}.

(** The terminal results of a call. *)
Inductive Outcome : Type :=
  | Success (payload : string)
  | WorkerError (e : jsError)
  | Timeout
  | ProcessExit (exitCode : option Z).

Section Outcomes.
Context `{Imports}.

(** The outcome of an error-like argument: none when [coerceAsError]
    throws on it. *)
Definition workerError (errorLike : jsValue) : option Outcome :=
  match coerceAsError errorLike with
  | inr e => Some (WorkerError e)
  | inl _ => None
  end.

(** The outcome an event stands for; a [close] with exit code 0 stands for
    none, and so does a signal on whose argument [coerceAsError] throws. *)
Definition outcomeOf (e : event) : option Outcome :=
  match e with
  | Signal (OnMessage (JString payload)) => Some (Success payload)
  | Signal (OnMessage messageOrError) => workerError messageOrError
  | Signal (OnError e) => workerError e
  | Signal (OnClose exitCode) =>
      if Child.nonZero exitCode then Some (ProcessExit exitCode) else None
  | TimerRuns => Some Timeout
  end.

(** The outcome of the first event that stands for one. *)
Fixpoint firstOutcome (es : list event) : option Outcome :=
  match es with
  | [] => None
  | e :: rest =>
      match outcomeOf e with
      | Some o => Some o
      | None => firstOutcome rest
      end
  end.

(** How the caller of [compile] sees an outcome. *)
Definition completionOf (o : Outcome) : completion string :=
  match o with
  | Success payload => Return payload
  | WorkerError e => Throw e
  | Timeout => Throw (CompilationTimeoutError "Compilation timed out")
  | ProcessExit exitCode =>
      Throw (Error ("Compilation child process exited with exit code "
                    +:+ Child.exitCodeText exitCode +:+ "."))
  end.


(** The time at which the timer of a call on [request] is due. *)
Definition deadline (request : CompileConfig) : Z :=
  Child.timerDelay (Child.timeoutOrDefault request).

End Outcomes.
End Outcomes.

(** How the project configuration of a call can be refused. *)
Module Failures.
Import Js Runtime.

Section Failures.
Context `{Imports}.

(** The path of [dataform.json]. *)
Definition configPath (request : CompileConfig) : string :=
  Api.interpolate (projectDir request) +:+ "/dataform.json".

(** In the world [w], the project configuration is refused with the error
    [e]: the file cannot be read, its text cannot be parsed, or the parsed
    configuration, merged with the override of the request, does not pass
    [checkDataformJsonValidity]. *)
Inductive configFailure (w : world) (e : jsError) : Prop :=
  | ReadFails :
      disk w (configPath (compileConfig w)) = inl e ->
      configFailure w e
  | ParseFails text :
      disk w (configPath (compileConfig w)) = inr text ->
      JSON_parse text = inl e ->
      configFailure w e
  | ValidationFails text projectConfig :
      disk w (configPath (compileConfig w)) = inr text ->
      JSON_parse text = inr projectConfig ->
      Validity.checkDataformJsonValidity
        (deepmerge projectConfig
           (default ∅ (projectConfigOverride (compileConfig w)))) = inl e ->
      configFailure w e.

(** The error [compile] throws for a refused configuration. *)
Definition invalidProjectConfig (e : jsError) : jsError :=
  ErrorWithCause
    ("Compilation failed. ProjectConfig ('dataform.json') is invalid: " +:+ message e) e.

(** [schemaSuffixOverride] is absent or the empty string. *)
Definition noSchemaSuffixOverride (request : CompileConfig) : Prop :=
  schemaSuffixOverride request = None
  \/ schemaSuffixOverride request = Some EmptyString.

End Failures.
End Failures.

(** Further notions: what the validator reads, what [compile] does with an
    accepted configuration and with the answer of the worker. *)
Module Notions.
Import Js Runtime Failures.

(** The properties [checkDataformJsonValidity] looks at. *)
Definition inspectedProps : list string := "warehouse" :: Validity.simpleCheckProps.

Section Notions.
Context `{Imports}.



(** [deepmerge] gives a string of the source precedence over what the
    target has under the same name. *)
Definition sourceStringsWin : Prop :=
  forall target (source : jsObject) k s,
    source !! k = Some (JString s) ->
    deepmerge target source !! k = Some (JString s).

End Notions.
End Notions.

(** Concrete data for the examples: the warehouses of
    [df/api/dbadapters], a project directory on disk, and requests. *)
Module Sample.
Import Js Runtime.

#[local] Instance imports : Imports := {|
  validWarehouses := ["bigquery"; "postgres"; "redshift"; "sqldatawarehouse"; "snowflake"];
  coerceAsError := fun errorLike =>
    match errorLike with
    | JUndefined | JNull =>
        inl (TypeError "Cannot read properties of null or undefined")
    | _ =>
        match toString errorLike with
        | inl err => inl err
        | inr text => inr (Error text)
        end
    end;
  JSON_parse := fun text =>
    if String.eqb text "{}" then inr (JObject ∅)
    else if String.eqb text "{warehouse,defaultSchema}"
    then inr (JObject (<["warehouse" := JString "bigquery"]>
                         (<["defaultSchema" := JString "dataform"]> ∅)))
    else inl (SyntaxError "Unexpected token in JSON");
  deepmerge := fun target source =>
    match target with
    | JObject fields => source ∪ fields
    | _ => source
    end;
  CompiledGraph := string;
  decode64_CompiledGraph := inr;
  decode64_CoreExecutionResult := inr
|}.

Definition files (path : string) : jsError + string :=
  if String.eqb path "project/dataform.json" then inr "{warehouse,defaultSchema}"
  else if String.eqb path "empty/dataform.json" then inr "{}"
  else if String.eqb path "broken/dataform.json" then inr "{"
  else inl (SystemError "ENOENT: no such file or directory").

Definition request (dir : string) (suffix : option string) (millis : option Z)
  : CompileConfig :=
  {| projectDir := Some dir; schemaSuffixOverride := suffix;
     projectConfigOverride := None; timeoutMillis := millis; useMain := None |}.

(** A world in which no process has been forked yet. *)
Definition start (r : CompileConfig) (q : list (Z * signal)) : world :=
  {| disk := files; compileConfig := r; forks := 0;
     childProcess := {| alive := false; killed := false; sent := [] |};
     compileInChildProcess := Pending; timeout := Pending; race := Pending;
     timer := NoTimer; inbox := q |}.

(** The same with a process just forked. *)
Definition forked (r : CompileConfig) (q : list (Z * signal)) : world :=
  snd (Child.forkProcess (start r q)).

End Sample.

(** ** Facts about [checkDataformJsonValidity] *)

Module ValidityFacts.
Import Js Validity Rules.

Section Facts.
Context `{Imports}.
Implicit Types (cfg : jsObject) (p text : string) (v w : jsValue).

Lemma getProp_Some cfg p v : cfg !! p = Some v -> getProp cfg p = v.
Proof. intros Hp. unfold getProp. now rewrite Hp. Qed.

Lemma getProp_None cfg p : cfg !! p = None -> getProp cfg p = JUndefined.
Proof. intros Hp. unfold getProp. now rewrite Hp. Qed.

Lemma hasProp_Some cfg p v : cfg !! p = Some v -> hasProp cfg p = true.
Proof. intros Hp. unfold hasProp. apply bool_decide_eq_true. eauto. Qed.

Lemma hasProp_None cfg p : cfg !! p = None -> hasProp cfg p = false.
Proof.
  intros Hp. unfold hasProp. apply bool_decide_eq_false.
  rewrite Hp. intros [x Hx]. discriminate.
Qed.

Lemma hasProp_true cfg p : hasProp cfg p = true -> exists v, cfg !! p = Some v.
Proof. unfold hasProp. intros Hp. apply bool_decide_eq_true in Hp. exact Hp. Qed.

Lemma hasProp_false cfg p : hasProp cfg p = false -> cfg !! p = None.
Proof.
  destruct (cfg !! p) as [v|] eqn:Hp; [|reflexivity].
  rewrite (hasProp_Some _ _ _ Hp). discriminate.
Qed.

(** The names in the two tables are not the empty string. *)
Lemma simpleCheckProps_truthy p : In p simpleCheckProps -> truthy_string p = true.
Proof. simpl. intros Hin. repeat (destruct Hin as [<-|Hin]; [reflexivity|]). destruct Hin. Qed.

Lemma mandatoryProps_truthy p : In p mandatoryProps -> truthy_string p = true.
Proof. simpl. intros Hin. repeat (destruct Hin as [<-|Hin]; [reflexivity|]). destruct Hin. Qed.

(** *** [find] with a callback that can throw *)

(** What the result of [arrayFind] tells about the list: the elements
    before the one that ends the search all gave false. *)
Lemma arrayFind_inv {A} (f : A -> jsError + bool) (l : list A) :
  match arrayFind f l with
  | inr None => forall x, In x l -> f x = inr false
  | inr (Some x) =>
      exists pre post, l = (pre ++ x :: post)%list
                       /\ (forall y, In y pre -> f y = inr false) /\ f x = inr true
  | inl err =>
      exists pre x post, l = (pre ++ x :: post)%list
                         /\ (forall y, In y pre -> f y = inr false) /\ f x = inl err
  end.
Proof.
  induction l as [|x l IH]; simpl; [intros x []|].
  destruct (f x) as [err|[|]] eqn:Hx.
  - exists [], x, l. repeat split; auto. intros y [].
  - exists [], l. repeat split; auto. intros y [].
  - destruct (arrayFind f l) as [err|[z|]].
    + destruct IH as (pre & z & post & -> & Hpre & Hz).
      exists (x :: pre), z, post. repeat split; auto.
      intros y [<-|Hy]; auto.
    + destruct IH as (pre & post & -> & Hpre & Hz).
      exists (x :: pre), post. repeat split; auto.
      intros y [<-|Hy]; auto.
    + intros y [<-|Hy]; auto.
Qed.

Lemma arrayFind_prefix {A} (f : A -> jsError + bool) pre x post :
  (forall y, In y pre -> f y = inr false) ->
  arrayFind f (pre ++ x :: post) =
    match f x with
    | inl err => inl err
    | inr true => inr (Some x)
    | inr false => arrayFind f post
    end.
Proof.
  intros Hpre. induction pre as [|y pre IH]; simpl; [reflexivity|].
  rewrite (Hpre y) by now left. apply IH. intros z Hz. apply Hpre. now right.
Qed.

Lemma arrayFind_none {A} (f : A -> jsError + bool) l :
  (forall x, In x l -> f x = inr false) -> arrayFind f l = inr None.
Proof.
  induction l as [|x l IH]; intros Hl; simpl; [reflexivity|].
  rewrite (Hl x) by now left. apply IH. intros y Hy. apply Hl. now right.
Qed.

(** *** Each rule on its own *)

Lemma invalidWarehouseProp_violated cfg w text :
  warehouseViolatedBy cfg w -> toString w = inr text ->
  invalidWarehouseProp cfg = inr (Some (warehouseMessage text)).
Proof.
  intros (Hw & Ht & Hi) Htext. unfold invalidWarehouseProp.
  rewrite (getProp_Some _ _ _ Hw), Ht, Hi, Htext. reflexivity.
Qed.

Lemma invalidWarehouseProp_throws cfg w err :
  warehouseViolatedBy cfg w -> toString w = inl err ->
  invalidWarehouseProp cfg = inl err.
Proof.
  intros (Hw & Ht & Hi) Htext. unfold invalidWarehouseProp.
  rewrite (getProp_Some _ _ _ Hw), Ht, Hi, Htext. reflexivity.
Qed.

Lemma invalidWarehouseProp_kept cfg :
  ~ warehouseViolated cfg -> invalidWarehouseProp cfg = inr None.
Proof.
  intros Hno. unfold invalidWarehouseProp.
  destruct (cfg !! "warehouse") as [w|] eqn:Hw.
  - rewrite (getProp_Some _ _ _ Hw).
    destruct (truthy w) eqn:Ht; [|reflexivity].
    destruct (includes validWarehouses w) eqn:Hi; [reflexivity|].
    exfalso. apply Hno. exists w. repeat split; assumption.
  - rewrite (getProp_None _ _ Hw). reflexivity.
Qed.

Lemma warehouseViolated_dec cfg : warehouseViolated cfg \/ ~ warehouseViolated cfg.
Proof.
  destruct (cfg !! "warehouse") as [w|] eqn:Hw.
  - destruct (truthy w) eqn:Ht; [destruct (includes validWarehouses w) eqn:Hi|].
    + right. intros (w' & Hw' & _ & Hi'). congruence.
    + left. exists w. repeat split; assumption.
    + right. intros (w' & Hw' & Ht' & _). congruence.
  - right. intros (w' & Hw' & _). congruence.
Qed.

Lemma breaksPattern_clean cfg p : simpleCleanAt cfg p -> breaksPattern cfg p = inr false.
Proof.
  intros Hclean. unfold breaksPattern.
  destruct (cfg !! p) as [v|] eqn:Hp.
  - now rewrite (hasProp_Some _ _ _ Hp), (getProp_Some _ _ _ Hp), (Hclean v Hp).
  - now rewrite (hasProp_None _ _ Hp).
Qed.

Lemma breaksPattern_false cfg p : breaksPattern cfg p = inr false -> simpleCleanAt cfg p.
Proof.
  unfold breaksPattern. intros Hb v Hp.
  rewrite (hasProp_Some _ _ _ Hp), (getProp_Some _ _ _ Hp) in Hb.
  destruct (simplePattern_test v) as [err|[|]]; simpl in Hb; congruence.
Qed.

Lemma breaksPattern_true cfg p :
  breaksPattern cfg p = inr true ->
  exists v text, cfg !! p = Some v /\ toString v = inr text
                 /\ allChars simpleChar text = false.
Proof.
  unfold breaksPattern. destruct (hasProp cfg p) eqn:Hhas; [|discriminate].
  apply hasProp_true in Hhas as [v Hp]. rewrite (getProp_Some _ _ _ Hp).
  unfold simplePattern_test. destruct (toString v) as [err|text] eqn:Htext; [discriminate|].
  destruct (allChars simpleChar text) eqn:Hok; [discriminate|].
  intros _. exists v, text. repeat split; assumption.
Qed.

Lemma breaksPattern_throws cfg p err :
  breaksPattern cfg p = inl err ->
  exists v, cfg !! p = Some v /\ toString v = inl err.
Proof.
  unfold breaksPattern. destruct (hasProp cfg p) eqn:Hhas; [|discriminate].
  apply hasProp_true in Hhas as [v Hp]. rewrite (getProp_Some _ _ _ Hp).
  unfold simplePattern_test. destruct (toString v) as [err'|text] eqn:Htext; [|discriminate].
  intros [= <-]. exists v. split; assumption.
Qed.

Lemma breaksPattern_violated cfg p v text :
  simpleViolatedAt cfg p v text -> breaksPattern cfg p = inr true.
Proof.
  intros (_ & Hp & Htext & Hbad). unfold breaksPattern, simplePattern_test.
  now rewrite (hasProp_Some _ _ _ Hp), (getProp_Some _ _ _ Hp), Htext, Hbad.
Qed.

(** What the result of [invalidProp] tells about the configuration. *)
Lemma invalidProp_inv cfg :
  match invalidProp cfg with
  | inr None => simpleClean cfg
  | inr (Some m) =>
      exists pre p post v text,
        simpleCheckProps = (pre ++ p :: post)%list
        /\ (forall q, In q pre -> simpleCleanAt cfg q)
        /\ simpleViolatedAt cfg p v text /\ m = simpleMessage p text
  | inl err =>
      exists p v, In p simpleCheckProps /\ cfg !! p = Some v /\ toString v = inl err
  end.
Proof.
  unfold invalidProp.
  pose proof (arrayFind_inv (breaksPattern cfg) simpleCheckProps) as Hfind.
  destruct (arrayFind (breaksPattern cfg) simpleCheckProps) as [err|[q|]].
  - destruct Hfind as (pre & x & post & Htable & _ & Hx).
    destruct (breaksPattern_throws _ _ _ Hx) as (v & Hp & Hv).
    exists x, v. repeat split; try assumption.
    rewrite Htable. apply in_or_app. right. now left.
  - destruct Hfind as (pre & post & Htable & Hpre & Hq).
    assert (In q simpleCheckProps) as Hin.
    { rewrite Htable. apply in_or_app. right. now left. }
    rewrite (simpleCheckProps_truthy _ Hin).
    destruct (breaksPattern_true _ _ Hq) as (v & text & Hp & Htext & Hbad).
    rewrite (getProp_Some _ _ _ Hp), Htext.
    exists pre, q, post, v, text. repeat split; try assumption.
    intros r Hr. apply breaksPattern_false. now apply Hpre.
  - intros p Hp. apply breaksPattern_false. now apply Hfind.
Qed.

Lemma invalidProp_clean cfg : simpleClean cfg -> invalidProp cfg = inr None.
Proof.
  intros Hclean. unfold invalidProp. rewrite arrayFind_none; [reflexivity|].
  intros p Hp. apply breaksPattern_clean. now apply Hclean.
Qed.

Lemma invalidProp_first cfg pre p post v text :
  simpleCheckProps = (pre ++ p :: post)%list ->
  (forall q, In q pre -> simpleCleanAt cfg q) ->
  simpleViolatedAt cfg p v text ->
  invalidProp cfg = inr (Some (simpleMessage p text)).
Proof.
  intros Htable Hpre Hat. unfold invalidProp. rewrite Htable, arrayFind_prefix.
  - rewrite (breaksPattern_violated _ _ _ _ Hat).
    destruct Hat as (Hin & Hp & Htext & _).
    now rewrite (simpleCheckProps_truthy _ Hin), (getProp_Some _ _ _ Hp), Htext.
  - intros q Hq. apply breaksPattern_clean. now apply Hpre.
Qed.

Lemma invalidProp_violated cfg :
  simplePrintable cfg -> simpleViolated cfg ->
  exists p v text, simpleViolatedAt cfg p v text
                   /\ invalidProp cfg = inr (Some (simpleMessage p text)).
Proof.
  intros Hprint (p & v & text & Hat).
  pose proof (invalidProp_inv cfg) as Hinv.
  destruct (invalidProp cfg) as [err|[m|]].
  - destruct Hinv as (q & u & Hq & Hu & Herr).
    destruct (Hprint q u Hq Hu) as [t Ht]. congruence.
  - destruct Hinv as (pre & q & post & u & t & _ & _ & Hq & ->).
    now exists q, u, t.
  - exfalso. destruct Hat as (Hin & Hp & Htext & Hbad).
    specialize (Hinv p Hin v Hp). unfold simplePattern_test in Hinv.
    rewrite Htext, Hbad in Hinv. discriminate.
Qed.

(** [mandatoryProps] is searched in order: [warehouse], then
    [defaultSchema]. *)
Lemma missingMandatoryProp_cases cfg :
  missingMandatoryProp cfg =
    if hasProp cfg "warehouse"
    then if hasProp cfg "defaultSchema" then None
         else Some (missingMessage "defaultSchema")
    else Some (missingMessage "warehouse").
Proof.
  unfold missingMandatoryProp, mandatoryProps. simpl.
  destruct (hasProp cfg "warehouse"); simpl; [|reflexivity].
  destruct (hasProp cfg "defaultSchema"); reflexivity.
Qed.

(** *** The three rules together *)

Lemma check_warehouse cfg w text :
  warehouseViolatedBy cfg w -> toString w = inr text ->
  checkDataformJsonValidity cfg = inl (Error (warehouseMessage text)).
Proof.
  intros Hw Htext. unfold checkDataformJsonValidity, validityMessage.
  now rewrite (invalidWarehouseProp_violated _ _ _ Hw Htext).
Qed.

Lemma check_warehouse_throws cfg w err :
  warehouseViolatedBy cfg w -> toString w = inl err ->
  checkDataformJsonValidity cfg = inl err.
Proof.
  intros Hw Htext. unfold checkDataformJsonValidity, validityMessage.
  now rewrite (invalidWarehouseProp_throws _ _ _ Hw Htext).
Qed.

(** With the warehouse rule holding, the message is that of the other two
    rules. *)
Lemma validityMessage_after_warehouse cfg :
  ~ warehouseViolated cfg ->
  validityMessage cfg = orElse (invalidProp cfg) (inr (missingMandatoryProp cfg)).
Proof.
  intros Hw. unfold validityMessage. now rewrite (invalidWarehouseProp_kept _ Hw).
Qed.

Lemma check_simple_first cfg pre p post v text :
  ~ warehouseViolated cfg ->
  simpleCheckProps = (pre ++ p :: post)%list ->
  (forall q, In q pre -> simpleCleanAt cfg q) ->
  simpleViolatedAt cfg p v text ->
  checkDataformJsonValidity cfg = inl (Error (simpleMessage p text)).
Proof.
  intros Hw Htable Hpre Hat.
  unfold checkDataformJsonValidity.
  now rewrite (validityMessage_after_warehouse _ Hw),
    (invalidProp_first _ _ _ _ _ _ Htable Hpre Hat).
Qed.

Lemma check_simple cfg :
  ~ warehouseViolated cfg -> simplePrintable cfg -> simpleViolated cfg ->
  exists p v text, simpleViolatedAt cfg p v text
                   /\ checkDataformJsonValidity cfg = inl (Error (simpleMessage p text)).
Proof.
  intros Hw Hprint Hs.
  destruct (invalidProp_violated _ Hprint Hs) as (p & v & text & Hat & Hmsg).
  exists p, v, text. split; [exact Hat|].
  unfold checkDataformJsonValidity.
  now rewrite (validityMessage_after_warehouse _ Hw), Hmsg.
Qed.

Lemma check_mandatory cfg :
  ~ warehouseViolated cfg -> simpleClean cfg ->
  checkDataformJsonValidity cfg =
    if hasProp cfg "warehouse"
    then if hasProp cfg "defaultSchema" then inr tt
         else inl (Error (missingMessage "defaultSchema"))
    else inl (Error (missingMessage "warehouse")).
Proof.
  intros Hw Hs.
  unfold checkDataformJsonValidity.
  rewrite (validityMessage_after_warehouse _ Hw), (invalidProp_clean _ Hs),
    missingMandatoryProp_cases.
  destruct (hasProp cfg "warehouse"); [destruct (hasProp cfg "defaultSchema")|];
    reflexivity.
Qed.

(** *** The order of the rules *)

(** C6, amended: the warehouse rule is looked at first, then the pattern
    rule, then the mandatory fields, and the first violated rule gives the
    one error raised (the values concerned being printable).  With no
    earlier rule violated, validation fails naming the first mandatory
    field that is missing, in the order [warehouse], [defaultSchema]. *)
Theorem first_violated_rule_determines_message cfg :
  (forall w text, warehouseViolatedBy cfg w -> toString w = inr text ->
     checkDataformJsonValidity cfg = inl (Error (warehouseMessage text)))
  /\ (~ warehouseViolated cfg -> simplePrintable cfg -> simpleViolated cfg ->
      exists p v text,
        simpleViolatedAt cfg p v text
        /\ checkDataformJsonValidity cfg = inl (Error (simpleMessage p text)))
  /\ (~ warehouseViolated cfg -> simpleClean cfg ->
      (cfg !! "warehouse" = None ->
       checkDataformJsonValidity cfg = inl (Error (missingMessage "warehouse")))
      /\ (is_Some (cfg !! "warehouse") -> cfg !! "defaultSchema" = None ->
          checkDataformJsonValidity cfg = inl (Error (missingMessage "defaultSchema")))).
Proof.
  split; [|split].
  - intros w text Hw Htext. now apply (check_warehouse _ w).
  - apply check_simple.
  - intros Hw Hs. rewrite (check_mandatory _ Hw Hs). split.
    + intros Hnone. now rewrite (hasProp_None _ _ Hnone).
    + intros [w Hsome] Hnone.
      now rewrite (hasProp_Some _ _ _ Hsome), (hasProp_None _ _ Hnone).
Qed.

(** *** The warehouse rule *)

(** C7, amended: a warehouse value that is truthy and outside the
    allow-list makes validation fail with the message that names the value
    and lists the allow-list, or with the [TypeError] of the conversion when
    the value cannot be printed; when [warehouse] is absent, or present with
    a falsy value, the warehouse check yields no message. *)
Theorem truthy_warehouse_outside_allow_list_rejected cfg :
  (forall w text, cfg !! "warehouse" = Some w -> truthy w = true ->
     includes validWarehouses w = false -> toString w = inr text ->
     checkDataformJsonValidity cfg = inl (Error (warehouseMessage text)))
  /\ (forall w err, cfg !! "warehouse" = Some w -> truthy w = true ->
        includes validWarehouses w = false -> toString w = inl err ->
        checkDataformJsonValidity cfg = inl err)
  /\ (cfg !! "warehouse" = None -> invalidWarehouseProp cfg = inr None)
  /\ (forall w, cfg !! "warehouse" = Some w -> truthy w = false ->
       invalidWarehouseProp cfg = inr None).
Proof.
  split; [|split; [|split]].
  - intros w text Hw Ht Hi Htext. apply (check_warehouse _ w); [|exact Htext].
    repeat split; assumption.
  - intros w err Hw Ht Hi Htext. apply (check_warehouse_throws _ w); [|exact Htext].
    repeat split; assumption.
  - intros Hw. apply invalidWarehouseProp_kept. intros (w & Hw' & _). congruence.
  - intros w Hw Ht. apply invalidWarehouseProp_kept. intros (w' & Hw' & Ht' & _).
    congruence.
Qed.

(** C9, amended: with the empty string as the value of [warehouse], the
    warehouse field raises nothing: the allow-list check yields no message
    and the mandatory-field check does not report [warehouse].  Validation
    then succeeds exactly when every simple field present matches the
    pattern and [defaultSchema] is present. *)
Theorem empty_warehouse_is_not_reported cfg :
  cfg !! "warehouse" = Some (JString EmptyString) ->
  invalidWarehouseProp cfg = inr None
  /\ missingMandatoryProp cfg <> Some (missingMessage "warehouse")
  /\ (checkDataformJsonValidity cfg = inr tt
      <-> simpleClean cfg /\ is_Some (cfg !! "defaultSchema")).
Proof.
  intros Hw.
  assert (~ warehouseViolated cfg) as Hnw.
  { intros (w & Hw' & Ht & _). rewrite Hw in Hw'. injection Hw' as <-. discriminate. }
  split; [now apply invalidWarehouseProp_kept|].
  split.
  - rewrite missingMandatoryProp_cases, (hasProp_Some _ _ _ Hw).
    destruct (hasProp cfg "defaultSchema"); discriminate.
  - split.
    + intros Hok.
      assert (simpleClean cfg) as Hclean.
      { unfold checkDataformJsonValidity in Hok.
        rewrite (validityMessage_after_warehouse _ Hnw) in Hok.
        pose proof (invalidProp_inv cfg) as Hinv.
        destruct (invalidProp cfg) as [err|[m|]]; [discriminate| |exact Hinv].
        destruct Hinv as (pre & p & post & v & text & _ & _ & _ & ->).
        discriminate. }
      split; [exact Hclean|].
      rewrite (check_mandatory _ Hnw Hclean), (hasProp_Some _ _ _ Hw) in Hok.
      destruct (hasProp cfg "defaultSchema") eqn:Hd; [|discriminate].
      apply hasProp_true in Hd. exact Hd.
    + intros [Hclean [d Hd]].
      now rewrite (check_mandatory _ Hnw Hclean), (hasProp_Some _ _ _ Hw),
        (hasProp_Some _ _ _ Hd).
Qed.

End Facts.

(** *** Examples on the sample allow-list *)

(** A configuration that breaks all three rules at once. *)
Lemma first_violated_rule_determines_message_witness :
  let cfg : jsObject :=
    <["warehouse" := JString "mysql"]> (<["tablePrefix" := JString "a.b"]> ∅) in
  @checkDataformJsonValidity Sample.imports cfg
  = inl (Error "Invalid value on property warehouse: mysql. Should be one of: bigquery, postgres, redshift, sqldatawarehouse, snowflake.").
Proof.
  intros cfg.
  apply (proj1 (@first_violated_rule_determines_message Sample.imports cfg)
           (JString "mysql") "mysql"); [|reflexivity].
  repeat split; vm_compute; reflexivity.
Defined.

(** C6 as stated fails: in the empty configuration [defaultSchema] is a
    missing mandatory field and no earlier rule is violated, yet the message
    names [warehouse] and not [defaultSchema]. *)
Lemma missing_defaultSchema_is_not_named :
  let cfg : jsObject := ∅ in
  missingAt cfg "defaultSchema"
  /\ ~ @warehouseViolated Sample.imports cfg
  /\ simpleClean cfg
  /\ @checkDataformJsonValidity Sample.imports cfg
     = inl (Error "Missing mandatory property: warehouse.")
  /\ @checkDataformJsonValidity Sample.imports cfg
     <> inl (Error (missingMessage "defaultSchema")).
Proof.
  cbv zeta. split; [split; [simpl; auto|apply lookup_empty]|].
  split; [intros (w & Hw & _); rewrite lookup_empty in Hw; discriminate|].
  split; [intros p _ v Hv; rewrite lookup_empty in Hv; discriminate|].
  split; [vm_compute; reflexivity|vm_compute; discriminate].
Qed.

Lemma truthy_warehouse_outside_allow_list_rejected_witness :
  let cfg : jsObject :=
    <["warehouse" := JString "mysql"]> (<["defaultSchema" := JString "dataform"]> ∅) in
  @checkDataformJsonValidity Sample.imports cfg
  = inl (Error "Invalid value on property warehouse: mysql. Should be one of: bigquery, postgres, redshift, sqldatawarehouse, snowflake.").
Proof.
  intros cfg.
  apply (proj1 (@truthy_warehouse_outside_allow_list_rejected Sample.imports cfg)
           (JString "mysql") "mysql"); vm_compute; reflexivity.
Defined.

(** C7 as stated fails: the empty string is outside the allow-list, and a
    configuration with it as [warehouse] passes validation. *)
Lemma falsy_warehouse_outside_allow_list_accepted :
  let cfg : jsObject :=
    <["warehouse" := JString EmptyString]> (<["defaultSchema" := JString "dataform"]> ∅) in
  cfg !! "warehouse" = Some (JString EmptyString)
  /\ includes (@validWarehouses Sample.imports) (JString EmptyString) = false
  /\ @checkDataformJsonValidity Sample.imports cfg = inr tt.
Proof. vm_compute. repeat split; reflexivity. Qed.

(** C9 as stated fails: a configuration whose only field is [warehouse],
    with the empty string as value, does not pass validation. *)
Lemma empty_warehouse_alone_rejected :
  let cfg : jsObject := <["warehouse" := JString EmptyString]> ∅ in
  cfg !! "warehouse" = Some (JString EmptyString)
  /\ @checkDataformJsonValidity Sample.imports cfg
     = inl (Error "Missing mandatory property: defaultSchema.").
Proof. vm_compute. split; reflexivity. Qed.

Lemma empty_warehouse_is_not_reported_witness :
  let cfg : jsObject :=
    <["warehouse" := JString EmptyString]> (<["defaultSchema" := JString "dataform"]> ∅) in
  @invalidWarehouseProp Sample.imports cfg = inr None.
Proof.
  intros cfg.
  apply (@empty_warehouse_is_not_reported Sample.imports cfg).
  vm_compute. reflexivity.
Defined.

End ValidityFacts.

(** ** Facts about [CompileChildProcess.compile] *)

Module ChildFacts.
Import Js Runtime Child Outcomes.

Section Facts.
Context `{Imports}.

Lemma sameCall_refl w : sameCall w w.
Proof. split; auto. Qed.

Lemma sameCall_trans w1 w2 w3 : sameCall w1 w2 -> sameCall w2 w3 -> sameCall w1 w3.
Proof.
  intros [] []. split; try congruence. auto.
Qed.

Lemma sameCall_deliver s w : sameCall w (deliver s w).
Proof.
  unfold deliver, settleRace. destruct w as [d c f [a k st] p t r tm q]. simpl.
  destruct s; simpl; destruct r; split; simpl; auto.
Qed.

Lemma sameCall_fireTimer w : sameCall w (fireTimer w).
Proof.
  unfold fireTimer, settleRace. destruct w as [d c f [a k st] p t r tm q]. simpl.
  destruct r; split; simpl; auto.
Qed.

Lemma sameCall_set_inbox q w : sameCall w (set_inbox q w).
Proof. split; simpl; auto. Qed.

Lemma timer_deliver s w : timer (deliver s w) = timer w.
Proof.
  unfold deliver, settleRace. destruct w as [d c f [a k st] p t r tm q]. simpl.
  destruct s; simpl; destruct r; reflexivity.
Qed.

Lemma timer_fireTimer w : timer (fireTimer w) = Fired.
Proof.
  unfold fireTimer, settleRace. destruct w as [d c f [a k st] p t r tm q]. simpl.
  destruct r; reflexivity.
Qed.

Lemma eventLoop_ready ready q w : ready w = true -> eventLoop ready q w = set_inbox q w.
Proof. intros Hr. destruct q; simpl; now rewrite Hr. Qed.

Lemma drain_ready ready q w : ready w = true -> drain ready q w = set_inbox q w.
Proof. intros Hr. destruct q; simpl; now rewrite Hr. Qed.

Lemma sameCall_drain ready q : forall w, sameCall w (drain ready q w).
Proof.
  induction q as [|[t s] rest IH]; intros w; simpl.
  - destruct (ready w); apply sameCall_set_inbox.
  - destruct (ready w); [apply sameCall_set_inbox|].
    eapply sameCall_trans; [apply sameCall_deliver|apply IH].
Qed.

Lemma timer_drain ready q : forall w, timer (drain ready q w) = timer w.
Proof.
  induction q as [|[t s] rest IH]; intros w; simpl.
  - destruct (ready w); reflexivity.
  - destruct (ready w); [reflexivity|]. rewrite IH. apply timer_deliver.
Qed.

Lemma sameCall_eventLoop ready q : forall w, sameCall w (eventLoop ready q w).
Proof.
  induction q as [|[t s] rest IH]; intros w; simpl.
  - destruct (ready w); [apply sameCall_set_inbox|].
    destruct (timer w); try apply sameCall_set_inbox.
    destruct (ready (fireTimer w));
      (eapply sameCall_trans; [apply sameCall_fireTimer|apply sameCall_set_inbox]).
  - destruct (ready w); [apply sameCall_set_inbox|].
    destruct (timer w) as [|due| |].
    + eapply sameCall_trans; [apply sameCall_deliver|apply sameCall_drain].
    + destruct (t <? due).
      * eapply sameCall_trans; [apply sameCall_deliver|apply IH].
      * eapply sameCall_trans; [apply sameCall_fireTimer|].
        apply (sameCall_drain ready ((t, s) :: rest)).
    + eapply sameCall_trans; [apply sameCall_deliver|apply sameCall_drain].
    + eapply sameCall_trans; [apply sameCall_deliver|apply sameCall_drain].
Qed.

(** *** One event *)

Lemma deliver_outcome due s o w :
  Awaiting due w -> outcomeOf (Signal s) = Some o ->
  resultOf (deliver s w) = completionOf o /\ raceReady (deliver s w) = true.
Proof.
  destruct w as [d c f [a k st] p t r tm q]. unfold Awaiting. simpl.
  intros (-> & -> & -> & ->) Ho.
  unfold deliver, settleRace, resultOf, raceReady. simpl.
  destruct s as [e|m|code]; simpl in Ho |- *.
  - unfold workerError in Ho. unfold rejectCoerced.
    destruct (coerceAsError e); [discriminate|].
    injection Ho as <-. split; reflexivity.
  - destruct m; unfold workerError in Ho; unfold rejectCoerced;
      try (injection Ho as <-; split; reflexivity);
      match goal with
      | |- context [coerceAsError ?x] => destruct (coerceAsError x)
      end; try discriminate; injection Ho as <-; split; reflexivity.
  - destruct (nonZero code); [|discriminate]. injection Ho as <-. split; reflexivity.
Qed.

Lemma deliver_no_outcome due s w :
  Awaiting due w -> outcomeOf (Signal s) = None -> Awaiting due (deliver s w).
Proof.
  destruct w as [d c f [a k st] p t r tm q]. unfold Awaiting. simpl.
  intros (-> & -> & -> & ->) Ho.
  unfold deliver, settleRace. simpl.
  destruct s as [e|m|code]; simpl in Ho |- *.
  - unfold workerError in Ho. unfold rejectCoerced.
    destruct (coerceAsError e); [|discriminate]. simpl. auto.
  - destruct m; unfold workerError in Ho; unfold rejectCoerced;
      try discriminate;
      match goal with
      | |- context [coerceAsError ?x] => destruct (coerceAsError x)
      end; try discriminate; simpl; auto.
  - destruct (nonZero code); [discriminate|]. simpl. auto.
Qed.

Lemma fireTimer_outcome due w :
  Awaiting due w ->
  resultOf (fireTimer w) = completionOf Timeout /\ raceReady (fireTimer w) = true.
Proof.
  destruct w as [d c f [a k st] p t r tm q]. unfold Awaiting. simpl.
  intros (-> & -> & -> & ->). split; reflexivity.
Qed.

Lemma Awaiting_not_ready due w : Awaiting due w -> raceReady w = false.
Proof. intros (Hr & _). unfold raceReady. now rewrite Hr. Qed.

Lemma resultOf_set_inbox q w : resultOf (set_inbox q w) = resultOf w.
Proof. reflexivity. Qed.

Lemma raceReady_set_inbox q w : raceReady (set_inbox q w) = raceReady w.
Proof. reflexivity. Qed.

Lemma timer_set_inbox q w : timer (set_inbox q w) = timer w.
Proof. reflexivity. Qed.

(** *** The loop while the call awaits the race *)

Lemma raceLoop due q : forall w,
  Awaiting due w ->
  exists o, firstOutcome (schedule due q) = Some o
            /\ resultOf (eventLoop raceReady q w) = completionOf o
            /\ raceReady (eventLoop raceReady q w) = true
            /\ (timer (eventLoop raceReady q w) = Armed due
                \/ timer (eventLoop raceReady q w) = Fired).
Proof.
  induction q as [|[t s] rest IH]; intros w Hw;
    pose proof (Awaiting_not_ready _ _ Hw) as Hnr;
    pose proof Hw as (_ & _ & _ & Htm).
  - exists Timeout. simpl. rewrite Hnr, Htm.
    destruct (fireTimer_outcome _ _ Hw) as [Hres Hrdy]. rewrite Hrdy.
    rewrite resultOf_set_inbox, raceReady_set_inbox, timer_set_inbox.
    repeat split; try assumption. right. apply timer_fireTimer.
  - simpl. rewrite Hnr, Htm. destruct (t <? due).
    + cbn [firstOutcome]. destruct (outcomeOf (Signal s)) as [o|] eqn:Ho.
      * exists o. destruct (deliver_outcome _ _ _ _ Hw Ho) as [Hres Hrdy].
        rewrite (eventLoop_ready _ _ _ Hrdy).
        rewrite resultOf_set_inbox, raceReady_set_inbox, timer_set_inbox.
        repeat split; try assumption. left. now rewrite timer_deliver.
      * apply IH. now apply deliver_no_outcome.
    + exists Timeout. destruct (fireTimer_outcome _ _ Hw) as [Hres Hrdy].
      rewrite Hrdy. cbn [firstOutcome outcomeOf].
      rewrite resultOf_set_inbox, raceReady_set_inbox, timer_set_inbox.
      repeat split; try assumption. right. apply timer_fireTimer.
Qed.

(** *** The [try] block *)

Lemma completionOf_not_Waiting o : completionOf o <> Waiting.
Proof. destruct o; discriminate. Qed.

Lemma set_inbox_same w : set_inbox (inbox w) w = w.
Proof. now destruct w. Qed.

Lemma awaitResult_unfold w :
  timeout w = Pending -> compileInChildProcess w = Pending ->
  awaitResult w =
    let w1 := eventLoop raceReady (inbox w) (set_race Pending w) in
    match race w1 with
    | Pending => (Waiting, w1)
    | Rejected reason => (Throw reason, w1)
    | Fulfilled _ =>
        let w2 := eventLoop resultReady (inbox w1) w1 in
        match compileInChildProcess w2 with
        | Pending => (Waiting, w2)
        | Rejected reason => (Throw reason, w2)
        | Fulfilled value => (Return value, w2)
        end
    end.
Proof.
  intros Ht Hc. unfold awaitResult, bind, modify, await. simpl.
  rewrite Ht, Hc. simpl.
  change (fun w0 : world => settled (race w0)) with raceReady.
  change (fun w0 : world => settled (compileInChildProcess w0)) with resultReady.
  destruct (race (eventLoop raceReady (inbox w) (set_race Pending w))); reflexivity.
Qed.

Lemma awaitResult_run due w :
  timeout w = Pending -> compileInChildProcess w = Pending -> timer w = Armed due ->
  exists o, firstOutcome (schedule due (inbox w)) = Some o
            /\ fst (awaitResult w) = completionOf o
            /\ raceReady (snd (awaitResult w)) = true
            /\ (timer (snd (awaitResult w)) = Armed due
                \/ timer (snd (awaitResult w)) = Fired)
            /\ sameCall w (snd (awaitResult w)).
Proof.
  intros Ht Hc Htm. rewrite (awaitResult_unfold _ Ht Hc). cbv zeta.
  assert (Awaiting due (set_race Pending w)) as Hw by (repeat split; assumption).
  destruct (raceLoop due (inbox w) _ Hw) as (o & Hfirst & Hres & Hrdy & Htimer).
  pose proof (sameCall_eventLoop raceReady (inbox w) (set_race Pending w)) as Hsame.
  set (w1 := eventLoop raceReady (inbox w) (set_race Pending w)) in *.
  assert (sameCall w w1) as Hsame1.
  { eapply sameCall_trans; [|exact Hsame]. split; simpl; auto. }
  exists o. split; [exact Hfirst|].
  unfold resultOf in Hres. unfold raceReady in Hrdy.
  destruct (race w1) as [|u|reason] eqn:Hrace.
  - discriminate.
  - destruct (compileInChildProcess w1) as [|value|reason] eqn:Hcicp.
    + exfalso. symmetry in Hres. now apply completionOf_not_Waiting in Hres.
    + rewrite eventLoop_ready by (unfold resultReady; now rewrite Hcicp).
      rewrite set_inbox_same, Hcicp. simpl.
      unfold raceReady. rewrite Hrace. auto.
    + rewrite eventLoop_ready by (unfold resultReady; now rewrite Hcicp).
      rewrite set_inbox_same, Hcicp. simpl.
      unfold raceReady. rewrite Hrace. auto.
  - simpl. unfold raceReady. rewrite Hrace. auto.
Qed.

(** *** The [finally] block *)

Ltac run_cleanup w :=
  unfold cleanup, bind, gets, kill, clearTimeout, modify, ret; simpl;
  destruct w as [d c f [a k st] p t r tm q]; simpl;
  destruct k; simpl; destruct a; simpl; destruct tm; simpl.

Lemma cleanup_returns w : fst (cleanup w) = Return tt.
Proof. run_cleanup w; reflexivity. Qed.

Lemma cleanup_timer w :
  timer (snd (cleanup w)) = match timer w with Armed _ => Cleared | t => t end.
Proof. run_cleanup w; reflexivity. Qed.

Lemma cleanup_alive w :
  killed (childProcess w) = false -> alive (childProcess (snd (cleanup w))) = false.
Proof. run_cleanup w; intros; auto; discriminate. Qed.

Lemma cleanup_frame w :
  disk (snd (cleanup w)) = disk w
  /\ compileConfig (snd (cleanup w)) = compileConfig w
  /\ forks (snd (cleanup w)) = forks w
  /\ race (snd (cleanup w)) = race w
  /\ inbox (snd (cleanup w)) = inbox w
  /\ sent (childProcess (snd (cleanup w))) = sent (childProcess w).
Proof. run_cleanup w; repeat split; reflexivity. Qed.

(** [try ... finally] runs the finalizer however the body ends. *)
Lemma tryFinally_run {A} (body : M A) (finalizer : M unit) w :
  fst (body w) <> Waiting ->
  fst (finalizer (snd (body w))) = Return tt ->
  tryFinally body finalizer w = (fst (body w), snd (finalizer (snd (body w)))).
Proof.
  unfold tryFinally. destruct (body w) as [[value|reason|] w1]; simpl.
  - intros _ Hfin. destruct (finalizer w1) as [[u|reason|] w2]; simpl in *;
      congruence.
  - intros _ Hfin. destruct (finalizer w1) as [[u|reason'|] w2]; simpl in *;
      congruence.
  - intros Hbody. now destruct Hbody.
Qed.

(** *** The whole method *)

Lemma startRequest_run w :
  fst (startRequest w) = Return tt
  /\ timeout (snd (startRequest w)) = Pending
  /\ compileInChildProcess (snd (startRequest w)) = Pending
  /\ timer (snd (startRequest w)) = Armed (deadline (compileConfig w))
  /\ inbox (snd (startRequest w)) = inbox w
  /\ disk (snd (startRequest w)) = disk w
  /\ compileConfig (snd (startRequest w)) = compileConfig w
  /\ forks (snd (startRequest w)) = forks w
  /\ killed (childProcess (snd (startRequest w))) = killed (childProcess w)
  /\ alive (childProcess (snd (startRequest w))) = alive (childProcess w)
  /\ sent (childProcess (snd (startRequest w)))
     = (sent (childProcess w) ++ [compileConfig w])%list.
Proof. repeat split; reflexivity. Qed.

Lemma compile_unfold w :
  compile w = tryFinally awaitResult cleanup (snd (startRequest w)).
Proof. reflexivity. Qed.

Lemma compile_run w :
  exists o,
    firstOutcome (schedule (deadline (compileConfig w)) (inbox w)) = Some o
    /\ fst (compile w) = completionOf o
    /\ raceReady (snd (compile w)) = true
    /\ (timer (snd (compile w)) = Cleared \/ timer (snd (compile w)) = Fired)
    /\ (killed (childProcess w) = false -> alive (childProcess (snd (compile w))) = false)
    /\ disk (snd (compile w)) = disk w
    /\ compileConfig (snd (compile w)) = compileConfig w
    /\ forks (snd (compile w)) = forks w
    /\ sent (childProcess (snd (compile w)))
       = (sent (childProcess w) ++ [compileConfig w])%list.
Proof.
  destruct (startRequest_run w)
    as (_ & Ht & Hc & Htm & Hq & Hd & Hcfg & Hf & Hk & _ & Hs).
  set (w0 := snd (startRequest w)) in *.
  destruct (awaitResult_run _ w0 Ht Hc Htm)
    as (o & Hfirst & Hres & Hrdy & Htimer & Hsame).
  rewrite Hq in Hfirst.
  assert (fst (awaitResult w0) <> Waiting) as Hdone.
  { rewrite Hres. apply completionOf_not_Waiting. }
  rewrite compile_unfold. fold w0.
  rewrite (tryFinally_run _ _ _ Hdone (cleanup_returns _)). simpl.
  set (w1 := snd (awaitResult w0)) in *.
  destruct (cleanup_frame w1) as (Hd' & Hcfg' & Hf' & Hr' & _ & Hs').
  destruct Hsame as [Sd Sc Sf Sk Ss _].
  exists o. split; [exact Hfirst|]. split; [exact Hres|].
  split; [unfold raceReady in *; now rewrite Hr'|].
  split.
  { rewrite cleanup_timer. destruct Htimer as [-> | ->]; auto. }
  split.
  { intros Hk0. apply cleanup_alive. congruence. }
  repeat split; congruence.
Qed.

(** *** Which event is the first to count *)


Lemma timerDelay_le after : timerDelay after <= Z.max 1 after.
Proof.
  unfold timerDelay. destruct ((1 <=? after) && (after <=? TIMEOUT_MAX)); lia.
Qed.

(** When no signal arrives before the timer is due, the timer is first. *)
Lemma schedule_late due q :
  (forall t s, In (t, s) q -> due <= t) ->
  firstOutcome (schedule due q) = Some Timeout.
Proof.
  destruct q as [|[t s] rest]; [reflexivity|].
  intros Hlate. cbn [schedule].
  assert ((t <? due) = false) as -> by (apply Z.ltb_ge, (Hlate t s); now left).
  reflexivity.
Qed.

Lemma schedule_early due t s rest :
  t < due -> schedule due ((t, s) :: rest) = Signal s :: schedule due rest.
Proof. intros Ht. cbn [schedule]. apply Z.ltb_lt in Ht. now rewrite Ht. Qed.

(** *** After the race has settled *)



Lemma fork_then_compile w :
  (forkProcess ;; compile)%js w = compile (snd (forkProcess w)).
Proof. reflexivity. Qed.

(** *** The claims *)

(** C1: a call that reaches the worker stage ends by returning or by
    throwing, with one of the four outcomes; however it ends, the worker
    process is not alive afterwards and the timer is no longer pending (it
    was cleared, or it has run). *)
Theorem cleanup_on_every_exit w :
  let call := (forkProcess ;; compile)%js w in
  (exists o, fst call = completionOf o)
  /\ alive (childProcess (snd call)) = false
  /\ (timer (snd call) = Cleared \/ timer (snd call) = Fired).
Proof.
  cbv zeta. rewrite fork_then_compile.
  destruct (compile_run (snd (forkProcess w)))
    as (o & _ & Hres & _ & Htimer & Halive & _).
  split; [now exists o|]. split; [|exact Htimer].
  apply Halive. reflexivity.
Qed.


(** C3: let the configured duration be [timeoutMillis] when it is given
    and not 0, and 5000 ms when it is not given (or 0).  When every signal
    of the worker arrives after that duration (and after 1 ms, the least a
    timer waits), the call throws [CompilationTimeoutError] and the worker
    process is not alive afterwards. *)
Theorem silent_worker_times_out w duration :
  (timeoutMillis (compileConfig w) = Some duration /\ duration <> 0)
  \/ ((timeoutMillis (compileConfig w) = None
       \/ timeoutMillis (compileConfig w) = Some 0) /\ duration = 5000) ->
  (forall t s, In (t, s) (inbox w) -> Z.max 1 duration < t) ->
  let call := (forkProcess ;; compile)%js w in
  fst call = Throw (CompilationTimeoutError "Compilation timed out")
  /\ alive (childProcess (snd call)) = false.
Proof.
  intros Hduration Hsilent. cbv zeta. rewrite fork_then_compile.
  destruct (compile_run (snd (forkProcess w)))
    as (o & Hfirst & Hres & _ & _ & Halive & _).
  split; [|now apply Halive].
  change (compileConfig (snd (forkProcess w))) with (compileConfig w) in Hfirst.
  change (inbox (snd (forkProcess w))) with (inbox w) in Hfirst.
  assert (timeoutOrDefault (compileConfig w) = duration) as Hconfigured.
  { unfold timeoutOrDefault.
    destruct Hduration as [[-> Hnz]|[[-> | ->] ->]]; try reflexivity.
    apply Z.eqb_neq in Hnz. now rewrite Hnz. }
  rewrite schedule_late in Hfirst.
  - injection Hfirst as <-. exact Hres.
  - intros t s Hin. specialize (Hsilent t s Hin).
    pose proof (timerDelay_le duration).
    unfold deadline. rewrite Hconfigured. lia.
Qed.

(** C4: a [close] with exit code 0 that arrives first leaves the promise
    pending, and the call ends as it would without that signal; a [close]
    with another exit code that arrives first, before the timer is due,
    makes the call throw the error whose message gives that code in decimal
    ([null] when the process was ended by a signal).  A [close] does nothing
    to a promise that has settled. *)
Theorem only_nonzero_exit_fails w t exitCode rest :
  inbox w = (t, OnClose exitCode) :: rest ->
  t < deadline (compileConfig w) ->
  (exitCode = Some 0 ->
     listener (OnClose exitCode) Pending = Pending
     /\ fst (compile w) = fst (compile (set_inbox rest w)))
  /\ (forall code, exitCode = Some code -> code <> 0 ->
      fst (compile w)
      = Throw (Error ("Compilation child process exited with exit code "
                      +:+ pretty code +:+ ".")))
  /\ (exitCode = None ->
      fst (compile w)
      = Throw (Error "Compilation child process exited with exit code null."))
  /\ (forall p, settled p = true -> listener (OnClose exitCode) p = p).
Proof.
  intros Hq Ht.
  destruct (compile_run w) as (o & Hfirst & Hres & _).
  rewrite Hq, (schedule_early _ _ _ _ Ht) in Hfirst. cbn [firstOutcome outcomeOf] in Hfirst.
  split; [|split; [|split]].
  - intros ->. split; [reflexivity|].
    destruct (compile_run (set_inbox rest w)) as (o' & Hfirst' & Hres' & _).
    simpl in Hfirst, Hfirst'. congruence.
  - intros code -> Hcode.
    assert (nonZero (Some code) = true) as Hnz.
    { simpl. now apply negb_true_iff, Z.eqb_neq. }
    rewrite Hnz in Hfirst. injection Hfirst as <-. exact Hres.
  - intros ->. simpl in Hfirst. injection Hfirst as <-. exact Hres.
  - intros p Hp. unfold listener. destruct (nonZero exitCode); [|reflexivity].
    destruct p; [discriminate| |]; reflexivity.
Qed.

(** C10: with [timeoutMillis] equal to 0, as when it is not given, the
    timer is set to the default of 5000 ms: a response that arrives before
    5000 ms is returned, and a worker that sends nothing until then makes the
    call time out. *)
Theorem zero_timeout_uses_default w :
  timeoutMillis (compileConfig w) = Some 0 \/ timeoutMillis (compileConfig w) = None ->
  timeoutOrDefault (compileConfig w) = 5000
  /\ timer (snd (startRequest w)) = Armed 5000
  /\ (forall t payload rest,
        inbox w = (t, OnMessage (JString payload)) :: rest -> t < 5000 ->
        fst (compile w) = Return payload)
  /\ ((forall t s, In (t, s) (inbox w) -> 5000 <= t) ->
      fst (compile w) = Throw (CompilationTimeoutError "Compilation timed out")).
Proof.
  intros Hfalsy.
  assert (timeoutOrDefault (compileConfig w) = 5000) as Hdefault.
  { unfold timeoutOrDefault. destruct Hfalsy as [-> | ->]; reflexivity. }
  assert (deadline (compileConfig w) = 5000) as Hdue.
  { unfold deadline. now rewrite Hdefault. }
  split; [exact Hdefault|].
  split; [destruct (startRequest_run w) as (_ & _ & _ & -> & _); now rewrite Hdue|].
  destruct (compile_run w) as (o & Hfirst & Hres & _). rewrite Hdue in Hfirst.
  split.
  - intros t payload rest Hq Ht.
    rewrite Hq, (schedule_early _ _ _ _ Ht) in Hfirst.
    cbn [firstOutcome outcomeOf] in Hfirst. injection Hfirst as <-. exact Hres.
  - intros Hlate. rewrite (schedule_late _ _ Hlate) in Hfirst.
    injection Hfirst as <-. exact Hres.
Qed.

End Facts.

(** *** Examples *)

#[local] Existing Instance Sample.imports.

(** A worker that answers after 51 ms, with a timeout of 50 ms. *)
Lemma silent_worker_times_out_witness :
  let w := Sample.start (Sample.request "project" None (Some 50))
                        [(51, OnMessage (JString "graph"))] in
  fst ((forkProcess ;; compile)%js w)
  = Throw (CompilationTimeoutError "Compilation timed out")
  /\ alive (childProcess (snd ((forkProcess ;; compile)%js w))) = false.
Proof.
  intros w. apply (@silent_worker_times_out Sample.imports w 50).
  - left. split; [reflexivity|discriminate].
  - intros t s [[= <- <-]|[]]. vm_compute. reflexivity.
Defined.

(** Workers that exit with code 1 and with code 137 after 100 ms without an
    answer. *)
Lemma only_nonzero_exit_fails_witness :
  let exits code := Sample.forked (Sample.request "project" None None)
                                  [(100, OnClose (Some code))] in
  fst (compile (exits 1))
  = Throw (Error "Compilation child process exited with exit code 1.")
  /\ fst (compile (exits 137))
     = Throw (Error "Compilation child process exited with exit code 137.").
Proof.
  intros exits.
  assert (forall code, 100 < deadline (compileConfig (exits code))) as Hearly
    by (intros code; vm_compute; reflexivity).
  split.
  - apply (proj1 (proj2 (@only_nonzero_exit_fails Sample.imports (exits 1) 100
                           (Some 1) [] eq_refl (Hearly 1))) 1 eq_refl).
    discriminate.
  - apply (proj1 (proj2 (@only_nonzero_exit_fails Sample.imports (exits 137) 100
                           (Some 137) [] eq_refl (Hearly 137))) 137 eq_refl).
    discriminate.
Defined.

(** A request with [timeoutMillis] 0 and a worker that answers after
    100 ms. *)
Lemma zero_timeout_uses_default_witness :
  let w := Sample.forked (Sample.request "project" None (Some 0))
                         [(100, OnMessage (JString "graph"))] in
  timeoutOrDefault (compileConfig w) = 5000
  /\ fst (compile w) = Return "graph".
Proof.
  intros w.
  destruct (@zero_timeout_uses_default Sample.imports w (or_introl eq_refl))
    as (Hdefault & _ & Hanswer & _).
  split; [exact Hdefault|].
  apply (Hanswer 100 "graph" [] eq_refl). lia.
Defined.

End ChildFacts.

(** ** Facts about the exported [compile] *)

Module ApiFacts.
Import Js Runtime Outcomes Failures Api.

Section Facts.
Context `{Imports}.

Lemma bind_run {A B} (m : M A) (k : A -> M B) w :
  bind m k w =
    match fst (m w) with
    | Return a => k a (snd (m w))
    | Throw e => (Throw e, snd (m w))
    | Waiting => (Waiting, snd (m w))
    end.
Proof. unfold bind. destruct (m w) as [[a|e|] w']; reflexivity. Qed.

Lemma set_compileConfig_same w : set_compileConfig (compileConfig w) w = w.
Proof. now destruct w. Qed.

(** *** Lines 32 to 37 *)

Lemma applySchemaSuffixOverride_returns w :
  fst (applySchemaSuffixOverride w) = Return tt.
Proof.
  unfold applySchemaSuffixOverride, bind, gets. simpl.
  destruct (schemaSuffixOverride (compileConfig w)) as [suffix|]; [|reflexivity].
  destruct (truthy_string suffix); reflexivity.
Qed.

Lemma applySchemaSuffixOverride_world w :
  snd (applySchemaSuffixOverride w)
  = set_compileConfig (compileConfig (snd (applySchemaSuffixOverride w))) w.
Proof.
  unfold applySchemaSuffixOverride, bind, gets. simpl.
  destruct (schemaSuffixOverride (compileConfig w)) as [suffix|];
    [destruct (truthy_string suffix)|]; simpl;
    try reflexivity; now rewrite set_compileConfig_same.
Qed.

Lemma applySchemaSuffixOverride_fields w :
  let after := compileConfig (snd (applySchemaSuffixOverride w)) in
  projectDir after = projectDir (compileConfig w)
  /\ schemaSuffixOverride after = schemaSuffixOverride (compileConfig w)
  /\ timeoutMillis after = timeoutMillis (compileConfig w)
  /\ useMain after = useMain (compileConfig w).
Proof.
  unfold applySchemaSuffixOverride, bind, gets. simpl.
  destruct (schemaSuffixOverride (compileConfig w)) as [suffix|] eqn:Hs;
    [destruct (truthy_string suffix)|]; simpl; auto.
Qed.

Lemma applySchemaSuffixOverride_none w :
  noSchemaSuffixOverride (compileConfig w) ->
  snd (applySchemaSuffixOverride w) = w.
Proof.
  unfold applySchemaSuffixOverride, bind, gets. simpl.
  intros [-> | ->]; reflexivity.
Qed.

Lemma applySchemaSuffixOverride_some w suffix :
  schemaSuffixOverride (compileConfig w) = Some suffix -> suffix <> EmptyString ->
  projectConfigOverride (compileConfig (snd (applySchemaSuffixOverride w)))
  = Some (withSchemaSuffix suffix (projectConfigOverride (compileConfig w))).
Proof.
  intros Hs Hne. unfold applySchemaSuffixOverride, bind, gets. simpl. rewrite Hs.
  assert (truthy_string suffix = true) as ->; [|reflexivity].
  unfold truthy_string. apply negb_true_iff.
  destruct suffix; [now destruct Hne|reflexivity].
Qed.

(** *** Lines 39 to 49 *)

Lemma checkProjectConfig_world w : snd (checkProjectConfig w) = w.
Proof.
  unfold checkProjectConfig, tryCatch, bind, gets, readFileSync, lift, throw, ret.
  simpl. destruct (disk w _) as [e|text]; [reflexivity|].
  destruct (JSON_parse text) as [e|projectConfig]; [reflexivity|].
  destruct (Validity.checkDataformJsonValidity _) as [e|[]]; reflexivity.
Qed.

Lemma checkProjectConfig_refused w e :
  configFailure w e -> fst (checkProjectConfig w) = Throw (invalidProjectConfig e).
Proof.
  unfold checkProjectConfig, tryCatch, bind, gets, readFileSync, lift, throw, ret.
  simpl.
  intros [Hread | text Hread Hparse | text projectConfig Hread Hparse Hvalid];
    unfold configPath in *.
  - now rewrite Hread.
  - now rewrite Hread, Hparse.
  - now rewrite Hread, Hparse, Hvalid.
Qed.

Lemma checkProjectConfig_not_Waiting w : fst (checkProjectConfig w) <> Waiting.
Proof.
  unfold checkProjectConfig, tryCatch, bind, gets, readFileSync, lift, throw, ret.
  simpl. destruct (disk w _) as [e|text]; [discriminate|].
  destruct (JSON_parse text) as [e|projectConfig]; [discriminate|].
  destruct (Validity.checkDataformJsonValidity _) as [e|[]]; discriminate.
Qed.

(** *** The whole function *)

Lemma compile_refused w dir e :
  projectDir (compileConfig w) = Some dir ->
  configFailure (snd (applySchemaSuffixOverride w)) e ->
  compile w = (Throw (invalidProjectConfig e), snd (applySchemaSuffixOverride w)).
Proof.
  intros Hdir Hfail. unfold compile.
  rewrite bind_run. cbn [gets fst snd]. rewrite Hdir.
  rewrite bind_run. cbn [path_resolve ret fst snd].
  rewrite bind_run, applySchemaSuffixOverride_returns.
  rewrite bind_run, (checkProjectConfig_refused _ _ Hfail).
  now rewrite checkProjectConfig_world.
Qed.

Lemma lift_world {A} (r : jsError + A) w : snd (lift r w) = w.
Proof. now destruct r. Qed.

(** The request after a call is the request as lines 32 to 37 leave it;
    when [projectDir] is not a string the call does not get that far. *)
Lemma compile_request w :
  compileConfig (snd (compile w)) =
    match projectDir (compileConfig w) with
    | Some _ => compileConfig (snd (applySchemaSuffixOverride w))
    | None => compileConfig w
    end.
Proof.
  unfold compile. rewrite bind_run. cbn [gets fst snd].
  destruct (projectDir (compileConfig w)) as [dir|]; [|reflexivity].
  rewrite bind_run. cbn [path_resolve ret fst snd].
  rewrite bind_run, applySchemaSuffixOverride_returns.
  rewrite bind_run, checkProjectConfig_world.
  set (w1 := snd (applySchemaSuffixOverride w)).
  destruct (fst (checkProjectConfig w1)) as [[]|e|]; try reflexivity.
  rewrite bind_run. cbn [Child.forkProcess modify fst snd].
  set (w2 := set_childProcess _ _).
  destruct (ChildFacts.compile_run w2) as (o & _ & _ & _ & _ & _ & _ & Hcfg & _).
  change (compileConfig w2) with (compileConfig w1) in Hcfg.
  rewrite bind_run.
  destruct (fst (Child.compile w2)) as [result|e|]; try exact Hcfg.
  rewrite bind_run. cbn [gets fst snd].
  destruct (default false (useMain (compileConfig (snd (Child.compile w2)))));
    now rewrite lift_world.
Qed.

(** *** The claims *)

(** C5: when the project configuration is refused (the file cannot be
    read, its text cannot be parsed, or validation fails), [compile] throws
    the error that wraps the cause; no process has been forked, nothing has
    been sent to a worker, and no signal has been awaited. *)
Theorem config_errors_precede_fork w dir e :
  projectDir (compileConfig w) = Some dir ->
  configFailure (snd (applySchemaSuffixOverride w)) e ->
  fst (compile w)
  = Throw (ErrorWithCause
             ("Compilation failed. ProjectConfig ('dataform.json') is invalid: "
              +:+ message e) e)
  /\ forks (snd (compile w)) = forks w
  /\ childProcess (snd (compile w)) = childProcess w
  /\ inbox (snd (compile w)) = inbox w.
Proof.
  intros Hdir Hfail. rewrite (compile_refused _ _ _ Hdir Hfail).
  rewrite applySchemaSuffixOverride_world. repeat split; reflexivity.
Qed.

(** C8, amended: [compile] leaves the caller's request as it is when
    [schemaSuffixOverride] is absent or empty.  Otherwise it assigns to
    [projectConfigOverride] a new object, made of [schemaSuffix] and the
    properties of the old override; the other fields of the request are
    never changed. *)
Theorem request_changes_only_by_schema_suffix w :
  let before := compileConfig w in
  let after := compileConfig (snd (compile w)) in
  (noSchemaSuffixOverride before -> after = before)
  /\ projectDir after = projectDir before
  /\ schemaSuffixOverride after = schemaSuffixOverride before
  /\ timeoutMillis after = timeoutMillis before
  /\ useMain after = useMain before
  /\ (forall dir suffix,
        projectDir before = Some dir ->
        schemaSuffixOverride before = Some suffix -> suffix <> EmptyString ->
        projectConfigOverride after
        = Some (withSchemaSuffix suffix (projectConfigOverride before))).
Proof.
  cbv zeta. rewrite compile_request.
  destruct (applySchemaSuffixOverride_fields w) as (Hd & Hs & Ht & Hu).
  split; [|split; [|split; [|split; [|split]]]].
  - intros Hnone. rewrite (applySchemaSuffixOverride_none _ Hnone).
    now destruct (projectDir (compileConfig w)).
  - destruct (projectDir (compileConfig w)) eqn:Hdir; congruence.
  - destruct (projectDir (compileConfig w)) eqn:Hdir; congruence.
  - destruct (projectDir (compileConfig w)) eqn:Hdir; congruence.
  - destruct (projectDir (compileConfig w)) eqn:Hdir; congruence.
  - intros dir suffix -> Hsuffix Hne. now apply applySchemaSuffixOverride_some.
Qed.

End Facts.

(** *** Examples *)

#[local] Existing Instance Sample.imports.

(** A project directory without [dataform.json]. *)
Lemma config_errors_precede_fork_witness :
  let w := Sample.start (Sample.request "nowhere" None None)
                        [(100, OnMessage (JString "graph"))] in
  fst (compile w)
  = Throw (ErrorWithCause
             "Compilation failed. ProjectConfig ('dataform.json') is invalid: ENOENT: no such file or directory"
             (SystemError "ENOENT: no such file or directory"))
  /\ forks (snd (compile w)) = 0%nat.
Proof.
  intros w.
  assert (configFailure (snd (applySchemaSuffixOverride w))
            (SystemError "ENOENT: no such file or directory")) as Hrefused
    by (apply ReadFails; vm_compute; reflexivity).
  destruct (@config_errors_precede_fork Sample.imports w "nowhere" _ eq_refl Hrefused)
    as (Hthrown & Hforks & _).
  split; [exact Hthrown|exact Hforks].
Defined.

(** C8 as stated fails: a call with [schemaSuffixOverride] set writes a new
    [projectConfigOverride] into the request of the caller. *)
Lemma request_is_mutated :
  let w := Sample.start (Sample.request "project" (Some "dev") None)
                        [(100, OnMessage (JString "graph"))] in
  fst (compile w) = Return "graph"
  /\ projectConfigOverride (compileConfig w) = None
  /\ projectConfigOverride (compileConfig (snd (compile w)))
     = Some {[ "schemaSuffix" := JString "dev" ]}.
Proof. vm_compute. repeat split; reflexivity. Qed.

Lemma request_changes_only_by_schema_suffix_witness :
  let w := Sample.start (Sample.request "project" None None)
                        [(100, OnMessage (JString "graph"))] in
  compileConfig (snd (compile w)) = compileConfig w.
Proof.
  intros w.
  apply (proj1 (@request_changes_only_by_schema_suffix Sample.imports w)).
  left. reflexivity.
Defined.

End ApiFacts.

(** ** More about [checkDataformJsonValidity] *)

Module ValidityMore.
Import Js Validity Rules Notions ValidityFacts.

Section Facts.
Context `{Imports}.
Implicit Types (cfg : jsObject) (p text : string) (v w : jsValue).

Lemma accepted_simpleClean cfg :
  ~ warehouseViolated cfg -> checkDataformJsonValidity cfg = inr tt ->
  simpleClean cfg.
Proof.
  intros Hw Hok. unfold checkDataformJsonValidity in Hok.
  rewrite (validityMessage_after_warehouse _ Hw) in Hok.
  pose proof (invalidProp_inv cfg) as Hinv.
  destruct (invalidProp cfg) as [err|[m|]]; [discriminate| |exact Hinv].
  destruct Hinv as (pre & p & post & v & text & _ & _ & _ & ->). discriminate.
Qed.

(** X1: a configuration is accepted exactly when no rule is violated: the
    value of [warehouse] is not a truthy value outside the allow-list, every
    simple field present can be printed and matches the pattern, and
    [warehouse] and [defaultSchema] are both present. *)
Theorem accepted_iff_no_rule_violated cfg :
  checkDataformJsonValidity cfg = inr tt
  <-> ~ warehouseViolated cfg /\ simpleClean cfg
      /\ is_Some (cfg !! "warehouse") /\ is_Some (cfg !! "defaultSchema").
Proof.
  split.
  - intros Hok.
    assert (~ warehouseViolated cfg) as Hw.
    { intros (w & Hw). destruct (toString w) as [err|text] eqn:Htext.
      - rewrite (check_warehouse_throws _ _ _ Hw Htext) in Hok. discriminate.
      - rewrite (check_warehouse _ _ _ Hw Htext) in Hok. discriminate. }
    pose proof (accepted_simpleClean _ Hw Hok) as Hs.
    split; [exact Hw|]. split; [exact Hs|].
    rewrite (check_mandatory _ Hw Hs) in Hok.
    destruct (hasProp cfg "warehouse") eqn:Hhw; [|discriminate].
    destruct (hasProp cfg "defaultSchema") eqn:Hhd; [|discriminate].
    split; now apply hasProp_true.
  - intros (Hw & Hs & [w Hpw] & [d Hpd]).
    now rewrite (check_mandatory _ Hw Hs), (hasProp_Some _ _ _ Hpw),
      (hasProp_Some _ _ _ Hpd).
Qed.

(** X2: every error the validator throws tells the truth.  It is the
    [Error] that names a warehouse value which is truthy and outside the
    allow-list, or the [TypeError] of printing that value; or (the warehouse
    rule holding) the [Error] that names a simple field whose value breaks
    the pattern, or the [TypeError] of printing the value of a simple field;
    or (both rules holding) the [Error] that names a mandatory field which
    is missing. *)
Theorem rejection_names_a_violated_rule cfg e :
  checkDataformJsonValidity cfg = inl e ->
  (exists w, warehouseViolatedBy cfg w
             /\ ((exists text, toString w = inr text /\ e = Error (warehouseMessage text))
                 \/ toString w = inl e))
  \/ (~ warehouseViolated cfg
      /\ exists p v, In p simpleCheckProps /\ cfg !! p = Some v
                     /\ ((exists text, toString v = inr text
                                       /\ allChars simpleChar text = false
                                       /\ e = Error (simpleMessage p text))
                         \/ toString v = inl e))
  \/ (~ warehouseViolated cfg /\ simpleClean cfg
      /\ exists p, missingAt cfg p /\ e = Error (missingMessage p)).
Proof.
  intros Hbad.
  destruct (warehouseViolated_dec cfg) as [(w & Hw)|Hw].
  { left. exists w. split; [exact Hw|].
    destruct (toString w) as [err|text] eqn:Htext.
    - right. rewrite (check_warehouse_throws _ _ _ Hw Htext) in Hbad. congruence.
    - left. exists text. split; [reflexivity|].
      rewrite (check_warehouse _ _ _ Hw Htext) in Hbad. congruence. }
  right.
  pose proof Hbad as Hbad'. unfold checkDataformJsonValidity in Hbad'.
  rewrite (validityMessage_after_warehouse _ Hw) in Hbad'.
  pose proof (invalidProp_inv cfg) as Hinv.
  destruct (invalidProp cfg) as [err|[m|]].
  - left. split; [exact Hw|]. destruct Hinv as (p & v & Hin & Hp & Herr).
    exists p, v. repeat split; try assumption. right.
    simpl in Hbad'. congruence.
  - left. split; [exact Hw|].
    destruct Hinv as (pre & p & post & v & text & _ & _ & (Hin & Hp & Htext & Hpat) & ->).
    exists p, v. repeat split; try assumption. left. exists text.
    repeat split; try assumption. simpl in Hbad'. congruence.
  - right. split; [exact Hw|]. split; [exact Hinv|].
    rewrite (check_mandatory _ Hw Hinv) in Hbad.
    destruct (hasProp cfg "warehouse") eqn:Hhw.
    + destruct (hasProp cfg "defaultSchema") eqn:Hhd; [discriminate|].
      exists "defaultSchema". split; [|congruence].
      split; [simpl; auto|now apply hasProp_false].
    + exists "warehouse". split; [|congruence].
      split; [simpl; auto|now apply hasProp_false].
Qed.

(** X3: among the simple fields, the one reported is the first, in the
    order of the table [simpleCheckProps], whose value breaks the pattern:
    the fields before it are absent or match it. *)
Theorem first_simple_field_is_reported cfg pre p post v text :
  simpleCheckProps = (pre ++ p :: post)%list ->
  ~ warehouseViolated cfg ->
  (forall q, In q pre -> simpleCleanAt cfg q) ->
  simpleViolatedAt cfg p v text ->
  checkDataformJsonValidity cfg = inl (Error (simpleMessage p text)).
Proof.
  intros Htable Hw Hpre Hat. now apply (check_simple_first _ pre p post v).
Qed.

Lemma arrayFind_agree {A} (f g : A -> jsError + bool) l :
  (forall x, In x l -> f x = g x) -> arrayFind f l = arrayFind g l.
Proof.
  induction l as [|x l IH]; intros Hfg; [reflexivity|]. simpl.
  rewrite (Hfg x) by now left.
  destruct (g x) as [err|[|]]; try reflexivity.
  apply IH. intros y Hy. apply Hfg. now right.
Qed.

(** X4: the validator reads six properties only: two configurations that
    agree on [warehouse] and on the five simple fields (of which
    [defaultSchema] is one) get the same verdict, with the same message. *)
Theorem only_inspected_props_matter cfg cfg' :
  (forall k, In k inspectedProps -> cfg !! k = cfg' !! k) ->
  checkDataformJsonValidity cfg = checkDataformJsonValidity cfg'.
Proof.
  intros Hsame.
  assert (forall k, In k inspectedProps -> getProp cfg k = getProp cfg' k) as Hget.
  { intros k Hk. unfold getProp. now rewrite (Hsame k Hk). }
  assert (forall k, In k inspectedProps -> hasProp cfg k = hasProp cfg' k) as Hhas.
  { intros k Hk. unfold hasProp. now rewrite (Hsame k Hk). }
  unfold checkDataformJsonValidity, validityMessage.
  assert (invalidWarehouseProp cfg = invalidWarehouseProp cfg') as ->.
  { unfold invalidWarehouseProp. rewrite (Hget "warehouse"); [reflexivity|].
    now left. }
  assert (invalidProp cfg = invalidProp cfg') as ->.
  { unfold invalidProp.
    rewrite (arrayFind_agree (breaksPattern cfg) (breaksPattern cfg')).
    - pose proof (arrayFind_inv (breaksPattern cfg') simpleCheckProps) as Hinv.
      destruct (arrayFind (breaksPattern cfg') simpleCheckProps) as [err|[q|]];
        try reflexivity.
      destruct Hinv as (pre & post & Htable & _).
      rewrite (Hget q); [reflexivity|].
      right. rewrite Htable. apply in_or_app. right. now left.
    - intros q Hq. unfold breaksPattern.
      rewrite (Hget q), (Hhas q); try reflexivity; now right. }
  assert (missingMandatoryProp cfg = missingMandatoryProp cfg') as ->.
  { rewrite !missingMandatoryProp_cases.
    rewrite (Hhas "warehouse") by now left.
    rewrite (Hhas "defaultSchema"); [reflexivity|].
    right. simpl. auto 10. }
  reflexivity.
Qed.

End Facts.

(** *** Examples *)

Lemma accepted_iff_no_rule_violated_witness :
  let cfg : jsObject :=
    <["warehouse" := JString "bigquery"]> (<["defaultSchema" := JString "dataform"]> ∅) in
  simpleClean cfg /\ is_Some (cfg !! "defaultSchema").
Proof.
  intros cfg.
  destruct (proj1 (@accepted_iff_no_rule_violated Sample.imports cfg))
    as (_ & Hs & _ & Hd); [vm_compute; reflexivity|].
  split; [exact Hs|exact Hd].
Defined.

(** A number that prints with an exponent breaks the pattern. *)
Lemma rejection_names_a_violated_rule_witness :
  let cfg : jsObject :=
    <["warehouse" := JString "bigquery"]>
      (<["defaultSchema" := JNumber "1e+21" true]> ∅) in
  let e := Error "Invalid value on property defaultSchema: 1e+21. Should only contain alphanumeric characters, underscores and/or hyphens." in
  (exists w, @warehouseViolatedBy Sample.imports cfg w
             /\ ((exists text, toString w = inr text
                               /\ e = Error (@warehouseMessage Sample.imports text))
                 \/ toString w = inl e))
  \/ (~ @warehouseViolated Sample.imports cfg
      /\ exists p v, In p simpleCheckProps /\ cfg !! p = Some v
                     /\ ((exists text, toString v = inr text
                                       /\ allChars simpleChar text = false
                                       /\ e = Error (simpleMessage p text))
                         \/ toString v = inl e))
  \/ (~ @warehouseViolated Sample.imports cfg /\ simpleClean cfg
      /\ exists p, missingAt cfg p /\ e = Error (missingMessage p)).
Proof.
  intros cfg e.
  apply (@rejection_names_a_violated_rule Sample.imports cfg).
  vm_compute. reflexivity.
Defined.

(** Two simple fields break the pattern; [assertionSchema], a number that
    prints with an exponent, comes first in the table. *)
Lemma first_simple_field_is_reported_witness :
  let cfg : jsObject :=
    <["tablePrefix" := JString "t p"]>
      (<["assertionSchema" := JNumber "1e+21" true]> ∅) in
  @checkDataformJsonValidity Sample.imports cfg
  = inl (Error "Invalid value on property assertionSchema: 1e+21. Should only contain alphanumeric characters, underscores and/or hyphens.").
Proof.
  intros cfg.
  apply (@first_simple_field_is_reported Sample.imports cfg []
           "assertionSchema"
           ["databaseSuffix"; "schemaSuffix"; "tablePrefix"; "defaultSchema"]
           (JNumber "1e+21" true) "1e+21" eq_refl).
  - intros (w & Hw & _). vm_compute in Hw. discriminate.
  - intros q [].
  - repeat split; [simpl; auto|vm_compute; reflexivity..].
Defined.

(** A property the validator does not read is added. *)
Lemma only_inspected_props_matter_witness :
  let cfg : jsObject := <["warehouse" := JString "mysql"]> ∅ in
  @checkDataformJsonValidity Sample.imports cfg
  = @checkDataformJsonValidity Sample.imports (<["vars" := JObject ∅]> cfg).
Proof.
  intros cfg.
  apply (@only_inspected_props_matter Sample.imports).
  intros k Hk. symmetry. apply lookup_insert_ne.
  simpl in Hk. intuition (subst; discriminate).
Defined.

End ValidityMore.

(** ** More about [CompileChildProcess.compile] *)

Module ChildMore.
Import Js Runtime Child Outcomes ChildFacts.

Ltac by_cases_of_cleanup w :=
  unfold cleanup, bind, gets, kill, clearTimeout, modify, ret; simpl;
  destruct w as [d c f [a k st] p t r tm q]; simpl;
  destruct k; simpl; destruct a; simpl; destruct tm; simpl.

Section Facts.
Context `{Imports}.

(** *** Signals that decide nothing *)

Lemma firstOutcome_quiet due q :
  (forall t s, In (t, s) q -> t < due -> outcomeOf (Signal s) = None) ->
  firstOutcome (schedule due q) = Some Timeout.
Proof.
  induction q as [|[t s] rest IH]; intros Hquiet; [reflexivity|].
  cbn [schedule]. destruct (t <? due) eqn:Ht; [|reflexivity].
  cbn [firstOutcome]. rewrite (Hquiet t s) by (try apply Z.ltb_lt; auto; now left).
  apply IH. intros t' s' Hin. apply Hquiet. now right.
Qed.

(** X5: a worker that closes with exit code 0 and sends nothing else before
    the timer is due does not make the call return: the call throws
    [CompilationTimeoutError]. *)
Theorem clean_exit_without_answer_times_out w :
  (forall t s, In (t, s) (inbox w) -> t < deadline (compileConfig w) ->
               s = OnClose (Some 0)) ->
  fst (compile w) = Throw (CompilationTimeoutError "Compilation timed out").
Proof.
  intros Hclean.
  destruct (compile_run w) as (o & Hfirst & Hres & _).
  rewrite firstOutcome_quiet in Hfirst.
  - injection Hfirst as <-. exact Hres.
  - intros t s Hin Ht. now rewrite (Hclean t s Hin Ht).
Qed.

(** *** A signal of the worker that decides the call *)

Lemma timeout_deliver s w : timeout (deliver s w) = timeout w.
Proof.
  unfold deliver, settleRace. destruct w as [d c f [a k st] p t r tm q]. simpl.
  destruct s; simpl; destruct r; reflexivity.
Qed.

Lemma timeout_drain ready q : forall w, timeout (drain ready q w) = timeout w.
Proof.
  induction q as [|[t s] rest IH]; intros w; simpl.
  - destruct (ready w); reflexivity.
  - destruct (ready w); [reflexivity|]. rewrite IH. apply timeout_deliver.
Qed.

(** Without a pending timer the loop only delivers signals. *)
Lemma eventLoop_no_timer ready q w :
  (forall due, timer w <> Armed due) -> eventLoop ready q w = drain ready q w.
Proof.
  intros Hno. destruct q as [|[t s] rest]; simpl.
  - destruct (ready w); [reflexivity|].
    destruct (timer w) as [|due| |]; try reflexivity. now destruct (Hno due).
  - destruct (ready w); [reflexivity|].
    destruct (timer w) as [|due| |]; try reflexivity. now destruct (Hno due).
Qed.

Lemma cleanup_timeout w : timeout (snd (cleanup w)) = timeout w.
Proof. by_cases_of_cleanup w; reflexivity. Qed.

(** The world in which the method ends when the first signal decides. *)
Lemma compile_first_signal w t s rest o :
  inbox w = (t, s) :: rest ->
  t < deadline (compileConfig w) ->
  outcomeOf (Signal s) = Some o ->
  compile w
  = (completionOf o,
     snd (cleanup (set_inbox rest
                     (deliver s (set_race Pending (snd (startRequest w))))))).
Proof.
  intros Hq Ht Ho.
  destruct (startRequest_run w) as (_ & Hto & Hc & Htm & Hq0 & _).
  set (w0 := snd (startRequest w)) in *.
  assert (Awaiting (deadline (compileConfig w)) (set_race Pending w0)) as Hw
    by (repeat split; assumption).
  destruct (deliver_outcome _ _ _ _ Hw Ho) as [Hres Hrdy].
  assert (eventLoop raceReady (inbox w0) (set_race Pending w0)
          = set_inbox rest (deliver s (set_race Pending w0))) as Hloop.
  { rewrite Hq0, Hq. cbn [eventLoop].
    rewrite (Awaiting_not_ready _ _ Hw).
    change (timer (set_race Pending w0)) with (timer w0). rewrite Htm.
    apply Z.ltb_lt in Ht. rewrite Ht. now apply eventLoop_ready. }
  set (w1 := set_inbox rest (deliver s (set_race Pending w0))) in *.
  assert (awaitResult w0 = (completionOf o, w1)) as Hawait.
  { rewrite (awaitResult_unfold _ Hto Hc). cbv zeta. rewrite Hloop.
    rewrite <- Hres. unfold resultOf, raceReady in *.
    change (race w1) with (race (deliver s (set_race Pending w0))).
    change (compileInChildProcess w1)
      with (compileInChildProcess (deliver s (set_race Pending w0))).
    destruct (race (deliver s (set_race Pending w0))) as [|u|reason];
      [discriminate| |reflexivity].
    destruct (compileInChildProcess (deliver s (set_race Pending w0)))
      as [|value|reason] eqn:Hcicp.
    - exfalso. symmetry in Hres. now apply completionOf_not_Waiting in Hres.
    - rewrite eventLoop_ready, set_inbox_same.
      + change (compileInChildProcess w1)
          with (compileInChildProcess (deliver s (set_race Pending w0))).
        now rewrite Hcicp.
      + unfold resultReady.
        change (compileInChildProcess w1)
          with (compileInChildProcess (deliver s (set_race Pending w0))).
        now rewrite Hcicp.
    - rewrite eventLoop_ready, set_inbox_same.
      + change (compileInChildProcess w1)
          with (compileInChildProcess (deliver s (set_race Pending w0))).
        now rewrite Hcicp.
      + unfold resultReady.
        change (compileInChildProcess w1)
          with (compileInChildProcess (deliver s (set_race Pending w0))).
        now rewrite Hcicp. }
  rewrite compile_unfold. fold w0.
  rewrite tryFinally_run; rewrite Hawait; simpl.
  - reflexivity.
  - apply completionOf_not_Waiting.
  - apply cleanup_returns.
Qed.

(** X6: when a signal of the worker decides the call (it arrives first,
    before the timer is due, and is an answer, an error or a [close] with a
    code other than 0), the timer is cleared before it has run, the signals
    behind the deciding one stay in the queue, and whatever the event loop
    does afterwards the promise [timeout] is never rejected. *)
Theorem deciding_signal_clears_timer w t s rest o :
  inbox w = (t, s) :: rest ->
  t < deadline (compileConfig w) ->
  outcomeOf (Signal s) = Some o ->
  fst (compile w) = completionOf o
  /\ timer (snd (compile w)) = Cleared
  /\ inbox (snd (compile w)) = rest
  /\ forall ready q, timeout (eventLoop ready q (snd (compile w))) = Pending.
Proof.
  intros Hq Ht Ho. rewrite (compile_first_signal _ _ _ _ _ Hq Ht Ho). cbn [fst snd].
  destruct (startRequest_run w) as (_ & Hto & _ & Htm & _).
  set (w1 := set_inbox rest _).
  assert (timer w1 = Armed (deadline (compileConfig w))) as Htm1.
  { unfold w1. rewrite timer_set_inbox, timer_deliver. exact Htm. }
  assert (timeout w1 = Pending) as Hto1.
  { unfold w1. change (timeout (set_inbox rest ?x)) with (timeout x).
    rewrite timeout_deliver. exact Hto. }
  assert (timer (snd (cleanup w1)) = Cleared) as Hcleared
    by now rewrite cleanup_timer, Htm1.
  split; [reflexivity|]. split; [exact Hcleared|]. split.
  - destruct (cleanup_frame w1) as (_ & _ & _ & _ & -> & _). reflexivity.
  - intros ready q. rewrite eventLoop_no_timer.
    + now rewrite timeout_drain, cleanup_timeout.
    + intros due. rewrite Hcleared. discriminate.
Qed.


(** X8: a [timeoutMillis] between 1 and [TIMEOUT_MAX] is the time the call
    waits: an answer that arrives before it is returned, and when the first
    signal arrives after it the call throws [CompilationTimeoutError]. *)
Theorem configured_timeout_is_honoured w millis :
  timeoutMillis (compileConfig w) = Some millis ->
  1 <= millis <= TIMEOUT_MAX ->
  deadline (compileConfig w) = millis
  /\ (forall t payload rest,
        inbox w = (t, OnMessage (JString payload)) :: rest -> t < millis ->
        fst (compile w) = Return payload)
  /\ (forall t s rest,
        inbox w = (t, s) :: rest -> millis < t ->
        fst (compile w) = Throw (CompilationTimeoutError "Compilation timed out")).
Proof.
  intros Hmillis Hrange.
  assert (deadline (compileConfig w) = millis) as Hdue.
  { unfold deadline, timeoutOrDefault, timerDelay. rewrite Hmillis.
    assert ((millis =? 0) = false) as -> by (apply Z.eqb_neq; lia). simpl.
    assert ((1 <=? millis) = true) as -> by (apply Z.leb_le; lia).
    assert ((millis <=? TIMEOUT_MAX) = true) as -> by (apply Z.leb_le; lia).
    reflexivity. }
  split; [exact Hdue|]. split.
  - intros t payload rest Hq Ht.
    rewrite (compile_first_signal w t _ rest (Success payload) Hq);
      [reflexivity|lia|reflexivity].
  - intros t s rest Hq Ht.
    destruct (compile_run w) as (o & Hfirst & Hres & _).
    rewrite Hdue, Hq in Hfirst. cbn [schedule] in Hfirst.
    assert ((t <? millis) = false) as Hlate by (apply Z.ltb_ge; lia).
    rewrite Hlate in Hfirst. injection Hfirst as <-. exact Hres.
Qed.

(** X9: the [finally] block can run twice: the second run changes
    nothing. *)
Theorem cleanup_is_idempotent w :
  snd (cleanup (snd (cleanup w))) = snd (cleanup w).
Proof. by_cases_of_cleanup w; reflexivity. Qed.

End Facts.

(** *** Examples *)

#[local] Existing Instance Sample.imports.

(** A worker that closes with code 0 after 100 ms and says nothing. *)
Lemma clean_exit_without_answer_times_out_witness :
  let w := Sample.forked (Sample.request "project" None None)
                         [(100, OnClose (Some 0))] in
  fst (compile w) = Throw (CompilationTimeoutError "Compilation timed out").
Proof.
  intros w. apply (@clean_exit_without_answer_times_out Sample.imports w).
  intros t s [[= <- <-]|[]] _. reflexivity.
Defined.

Lemma deciding_signal_clears_timer_witness :
  let w := Sample.forked (Sample.request "project" None None)
                         [(100, OnMessage (JString "graph")); (200, OnClose (Some 0))] in
  fst (compile w) = Return "graph"
  /\ timer (snd (compile w)) = Cleared
  /\ inbox (snd (compile w)) = [(200, OnClose (Some 0))].
Proof.
  intros w.
  assert (100 < deadline (compileConfig w)) as Hearly by (vm_compute; reflexivity).
  destruct (@deciding_signal_clears_timer Sample.imports w 100
              (OnMessage (JString "graph")) [(200, OnClose (Some 0))]
              (Success "graph") eq_refl Hearly eq_refl)
    as (Hres & Htimer & Hrest & _).
  split; [exact Hres|]. split; [exact Htimer|exact Hrest].
Defined.


Lemma configured_timeout_is_honoured_witness :
  let w := Sample.forked (Sample.request "project" None (Some 50))
                         [(51, OnMessage (JString "graph"))] in
  fst (compile w) = Throw (CompilationTimeoutError "Compilation timed out").
Proof.
  intros w.
  assert (1 <= 50 <= TIMEOUT_MAX) as Hrange by (unfold TIMEOUT_MAX; lia).
  destruct (@configured_timeout_is_honoured Sample.imports w 50 eq_refl Hrange)
    as (_ & _ & Hlate).
  apply (Hlate 51 (OnMessage (JString "graph")) [] eq_refl). lia.
Defined.

End ChildMore.

(** ** More about the exported [compile] *)

Module ApiMore.
Import Js Runtime Outcomes Failures Notions Api ApiFacts.

Section Facts.
Context `{Imports}.

(** *** Line 29 *)

(** X10: without a [projectDir] the call throws a [TypeError] at once: the
    request is not changed (whatever [schemaSuffixOverride] is), no file is
    read and no process is forked. *)
Theorem missing_projectDir_throws_first w :
  projectDir (compileConfig w) = None ->
  (exists msg, fst (compile w) = Throw (TypeError msg)) /\ snd (compile w) = w.
Proof.
  intros Hdir. unfold compile. rewrite bind_run. cbn [gets fst snd]. rewrite Hdir.
  split; [eexists|]; reflexivity.
Qed.

(** *** Lines 32 to 37 *)

Lemma withSchemaSuffix_schemaSuffix suffix (override : option jsObject) :
  withSchemaSuffix suffix override !! "schemaSuffix"
  = Some (default (JString suffix) (default ∅ override !! "schemaSuffix")).
Proof.
  unfold withSchemaSuffix.
  destruct (default ∅ override !! "schemaSuffix") as [v|] eqn:Hv; simpl.
  - now apply lookup_union_Some_l.
  - rewrite lookup_union_r by exact Hv. apply lookup_singleton_eq.
Qed.

Lemma withSchemaSuffix_other suffix (override : option jsObject) k :
  k <> "schemaSuffix" ->
  withSchemaSuffix suffix override !! k = default ∅ override !! k.
Proof.
  intros Hk. unfold withSchemaSuffix.
  destruct (default ∅ override !! k) as [v|] eqn:Hv.
  - now apply lookup_union_Some_l.
  - rewrite lookup_union_r by exact Hv. now apply lookup_singleton_ne.
Qed.

(** X11: when [schemaSuffixOverride] is not empty, the call leaves in
    [projectConfigOverride] an object with a [schemaSuffix]: the one of the
    old override when it has one, else [schemaSuffixOverride]; every other
    property is that of the old override. *)
Theorem override_schemaSuffix_takes_precedence w dir suffix :
  projectDir (compileConfig w) = Some dir ->
  schemaSuffixOverride (compileConfig w) = Some suffix ->
  suffix <> EmptyString ->
  exists override,
    projectConfigOverride (compileConfig (snd (compile w))) = Some override
    /\ override !! "schemaSuffix"
       = Some (default (JString suffix)
                 (default ∅ (projectConfigOverride (compileConfig w)) !! "schemaSuffix"))
    /\ forall k, k <> "schemaSuffix" ->
         override !! k = default ∅ (projectConfigOverride (compileConfig w)) !! k.
Proof.
  intros Hdir Hsuffix Hne.
  exists (withSchemaSuffix suffix (projectConfigOverride (compileConfig w))).
  split; [|split].
  - rewrite compile_request, Hdir. now apply applySchemaSuffixOverride_some.
  - apply withSchemaSuffix_schemaSuffix.
  - intros k Hk. now apply withSchemaSuffix_other.
Qed.

(** *** Lines 39 to 58 *)




Lemma fst_of_pair {A B} (a : A) (b : B) : fst (a, b) = a.
Proof. reflexivity. Qed.

Lemma snd_of_pair {A B} (a : A) (b : B) : snd (a, b) = b.
Proof. reflexivity. Qed.



Lemma applySchemaSuffixOverride_forks w :
  forks (snd (applySchemaSuffixOverride w)) = forks w.
Proof. now rewrite applySchemaSuffixOverride_world. Qed.

Lemma applySchemaSuffixOverride_disk w :
  disk (snd (applySchemaSuffixOverride w)) = disk w.
Proof. now rewrite applySchemaSuffixOverride_world. Qed.


(** X13: a [schemaSuffixOverride] with a character outside the pattern is
    refused before any process is forked (with the wrapped error of the
    validation), when the override of the request has no [schemaSuffix] of
    its own and [deepmerge] gives the strings of the override precedence. *)
Theorem invalid_schemaSuffixOverride_is_refused w dir text projectConfig suffix :
  sourceStringsWin ->
  projectDir (compileConfig w) = Some dir ->
  disk w (configPath (compileConfig w)) = inr text ->
  JSON_parse text = inr projectConfig ->
  schemaSuffixOverride (compileConfig w) = Some suffix ->
  simplePattern_test (JString suffix) = inr false ->
  default ∅ (projectConfigOverride (compileConfig w)) !! "schemaSuffix" = None ->
  (exists e, fst (compile w) = Throw (invalidProjectConfig e))
  /\ forks (snd (compile w)) = forks w.
Proof.
  intros Hwins Hdir Hread Hparse Hsuffix Hbad Hnone.
  assert (suffix <> EmptyString) as Hne by (intros ->; discriminate).
  pose proof (applySchemaSuffixOverride_some _ _ Hsuffix Hne) as Hover.
  destruct (applySchemaSuffixOverride_fields w) as (Hd1 & _).
  set (w1 := snd (applySchemaSuffixOverride w)) in *.
  set (merged := deepmerge projectConfig
                   (default ∅ (projectConfigOverride (compileConfig w1)))).
  assert (merged !! "schemaSuffix" = Some (JString suffix)) as Hmerged.
  { apply Hwins. rewrite Hover. simpl.
    rewrite withSchemaSuffix_schemaSuffix. now rewrite Hnone. }
  assert (exists e, Validity.checkDataformJsonValidity merged = inl e) as [e He].
  { destruct (Validity.checkDataformJsonValidity merged) as [e|[]] eqn:Hcheck;
      [now exists e|exfalso].
    destruct (ValidityFacts.warehouseViolated_dec merged) as [(v & Hv)|Hv].
    - destruct (toString v) as [err|printed] eqn:Hprinted.
      + rewrite (ValidityFacts.check_warehouse_throws _ _ _ Hv Hprinted) in Hcheck.
        discriminate.
      + rewrite (ValidityFacts.check_warehouse _ _ _ Hv Hprinted) in Hcheck.
        discriminate.
    - pose proof (ValidityMore.accepted_simpleClean _ Hv Hcheck) as Hclean.
      assert (In "schemaSuffix" Validity.simpleCheckProps) as Hin by (simpl; auto).
      rewrite (Hclean _ Hin _ Hmerged) in Hbad. discriminate. }
  assert (configFailure w1 e) as Hfail.
  { apply (ValidationFails _ _ text projectConfig).
    - unfold w1. rewrite applySchemaSuffixOverride_disk.
      unfold configPath in *. fold w1. now rewrite Hd1.
    - exact Hparse.
    - exact He. }
  rewrite (compile_refused _ _ _ Hdir Hfail), fst_of_pair, snd_of_pair.
  split; [now exists e|].
  apply applySchemaSuffixOverride_forks.
Qed.

End Facts.

(** *** Examples *)

#[local] Existing Instance Sample.imports.

(** The request written [compile()] stands for: the empty object. *)
Lemma missing_projectDir_throws_first_witness :
  let w := Sample.start {| projectDir := None; schemaSuffixOverride := Some "dev";
                           projectConfigOverride := None; timeoutMillis := None;
                           useMain := None |} [] in
  snd (compile w) = w.
Proof.
  intros w. apply (@missing_projectDir_throws_first Sample.imports w). reflexivity.
Defined.

(** The old override has a [schemaSuffix] of its own, and a [tablePrefix]. *)
Lemma override_schemaSuffix_takes_precedence_witness :
  let old : jsObject :=
    <["schemaSuffix" := JString "prod"]> (<["tablePrefix" := JString "t"]> ∅) in
  let w := Sample.start {| projectDir := Some "project";
                           schemaSuffixOverride := Some "dev";
                           projectConfigOverride := Some old;
                           timeoutMillis := None; useMain := None |}
                        [(100, OnMessage (JString "graph"))] in
  exists override,
    projectConfigOverride (compileConfig (snd (compile w))) = Some override
    /\ override !! "schemaSuffix" = Some (JString "prod")
    /\ forall k, k <> "schemaSuffix" -> override !! k = old !! k.
Proof.
  intros old w.
  apply (@override_schemaSuffix_takes_precedence Sample.imports w "project" "dev"
           eq_refl eq_refl).
  discriminate.
Defined.


Lemma invalid_schemaSuffixOverride_is_refused_witness :
  let w := Sample.start (Sample.request "project" (Some "a.b") None)
                        [(100, OnMessage (JString "graph"))] in
  (exists e, fst (compile w) = Throw (invalidProjectConfig e))
  /\ forks (snd (compile w)) = forks w.
Proof.
  intros w.
  apply (@invalid_schemaSuffixOverride_is_refused Sample.imports w "project"
           "{warehouse,defaultSchema}"
           (JObject (<["warehouse" := JString "bigquery"]>
                       (<["defaultSchema" := JString "dataform"]> ∅)))
           "a.b"); try (vm_compute; reflexivity).
  intros target source k s Hk. simpl.
  destruct target; try exact Hk. now apply lookup_union_Some_l.
Defined.

End ApiMore.
